(** * data_cube_ui: clear-pixel accounting and metadata aggregation

    A shallow embedding of the numeric core of

      - [apps/cloud_coverage/models.py]   (the [clear_percentage] closure of
        [Query.get_processing_method], and the [Metadata] methods), and
      - [apps/spectral_anomaly/models.py] ([Query.get_iterative],
        [Query.get_reverse_time], [Query.get_processing_method], and the
        same [Metadata] methods, whose bodies are textually those of the
        cloud-coverage class).

    Python 3 semantics are assumed throughout ([/] is true division). *)

From Stdlib Require Import ZArith QArith Lia Ascii.
From Stdlib Require SpecFloat.
From stdpp Require Import base decidable option numbers list sorting strings pretty
  countable fin_maps gmap.

Local Open Scope Z_scope.

(** ** Numbers as numpy has them *)

Module Np.

(** Counts are [int64] in numpy.  Every count in this development is bounded
    by a number of array cells or of time slices held in memory, far below
    [2^63], so they are carried as unbounded [Z]. *)

(** The result of a true division ([np.true_divide], [float64]).  A finite
    result is carried as the exact quotient in lowest terms: the rounding to
    the nearest binary64 value and the sign of zero are not represented.  The
    special values are the IEEE 754 ones numpy produces (with a
    [RuntimeWarning], never an exception) for a zero divisor. *)
Inductive float64 : Type :=
  | Finite (q : Q)
  | Inf (negative : bool)
  | NaN.

(** [a / b] on [int64] operands (array cells or numpy scalars). *)
Definition true_divide (a b : Z) : float64 :=
  if b =? 0 then
    if a =? 0 then NaN else Inf (a <? 0)
  else Finite (Qred (Qdiv (inject_Z a) (inject_Z b))).

(** [x * k] for a [float64] [x] and a non-zero Python [int] [k].  The
    product is exact, like the quotient it multiplies; the value stored
    after the two roundings is [StoredPercentage.percentage_binary64]. *)
Definition mul_int (x : float64) (k : Z) : float64 :=
  match x with
  | Finite q => Finite (Qred (Qmult q (inject_Z k)))
  | Inf s => if k =? 0 then NaN else Inf (xorb s (k <? 0))
  | NaN => NaN
  end.

(** [x == 0] on a [float64]. *)
Definition is_zero (x : float64) : bool :=
  match x with
  | Finite q => Qeq_bool q 0
  | _ => false
  end.

(** A two-dimensional array: its shape and its cells.  Only the cells inside
    the shape are meaningful. *)
Record array2 (A : Type) : Type := Array2 {
  rows : nat;
  cols : nat;
  cell : nat -> nat -> A
}.
Arguments Array2 {A} _ _ _.
Arguments rows {A} _.
Arguments cols {A} _.
Arguments cell {A} _ _ _.

(** A three-dimensional boolean array, axis 0 first. *)
Record mask3 : Type := Mask3 {
  depth : nat;
  mrows : nat;
  mcols : nat;
  mcell : nat -> nat -> nat -> bool
}.

(** [a.astype(np.int8)] on one boolean cell. *)
Definition int8_of_bool (b : bool) : Z := if b then 1 else 0.

(** Sum of [f 0 .. f (n-1)]. *)
Fixpoint sum_upto (n : nat) (f : nat -> Z) : Z :=
  match n with
  | O => 0
  | S k => sum_upto k f + f k
  end.

(** [np.sum(m.astype(np.int8), axis=0)]: the accumulator of a sum over a
    small integer type is the platform integer, so no cell wraps at 8 bits.
    The result has the shape of [m] without its first axis, also when that
    axis is empty. *)
Definition sum_axis0 (m : mask3) : array2 Z :=
  Array2 (mrows m) (mcols m)
         (fun i j => sum_upto (depth m) (fun t => int8_of_bool (mcell m t i j))).

(** [np.full(shape, v)]. *)
Definition full (shape : nat * nat) (v : Z) : array2 Z :=
  Array2 (fst shape) (snd shape) (fun _ _ => v).

Definition shape {A} (a : array2 A) : nat * nat := (rows a, cols a).

(** An axis of extent [m] can be stretched to extent [n] by broadcasting. *)
Definition stretches (m n : nat) : bool :=
  Nat.eqb m n || Nat.eqb m 1.

Definition bidx (m i : nat) : nat := if Nat.eqb m 1 then O else i.

(** In-place [a += b]: [b] is broadcast to the shape of [a]; [None] is the
    [ValueError] numpy raises when it cannot be. *)
Definition iadd (a b : array2 Z) : option (array2 Z) :=
  if stretches (rows b) (rows a) && stretches (cols b) (cols a) then
    Some (Array2 (rows a) (cols a)
            (fun i j => cell a i j + cell b (bidx (rows b) i) (bidx (cols b) j)))
  else None.

(** A mask from its time slices, each a list of rows; a cell that a ragged
    slice lacks reads [false]. *)
Definition mask_of_slices (r c : nat) (l : list (list (list bool))) : mask3 :=
  Mask3 (length l) r c (fun t i j => nth j (nth i (nth t l []) []) false).

End Np.

(** ** float64 with its rounding

    The IEEE 754 binary64 format of the Standard Library: 53 bits of
    mantissa, round to nearest, ties to even.  Where a value goes through
    more than one operation the roundings add up, and [Np.float64], which
    carries exact quotients, no longer tells the value that is stored. *)

Module Binary64.

Definition prec : Z := 53.
Definition emax : Z := 1024.

(** The conversion of an integer operand. *)
Definition of_int (z : Z) : SpecFloat.spec_float :=
  SpecFloat.binary_normalize prec emax z 0 false.

Definition div : SpecFloat.spec_float -> SpecFloat.spec_float
                 -> SpecFloat.spec_float :=
  SpecFloat.SFdiv prec emax.

Definition mul : SpecFloat.spec_float -> SpecFloat.spec_float
                 -> SpecFloat.spec_float :=
  SpecFloat.SFmul prec emax.

(** A positive number or the positive infinity. *)
Definition is_positive (x : SpecFloat.spec_float) : Prop :=
  match x with
  | SpecFloat.S754_finite false _ _ => True
  | SpecFloat.S754_infinity false => True
  | _ => False
  end.

End Binary64.

(** ** The cloud-coverage accumulator *)

Module CloudCoverage.
Import Np.

(** What [clear_percentage] reads of [dataset_in]: its three coordinates.
    Acquisition times are carried as numbers (their values are not read
    here, only how many there are). *)
Record dataset : Type := Dataset {
  time : list Z;
  latitude : list Q;
  longitude : list Q
}.

(** The intermediate product: an [xarray.Dataset] over the dimensions
    [('latitude', 'longitude')], whose variables share the two extents. *)
Record product : Type := Product {
  dims : nat * nat;
  total_pixels : nat -> nat -> Z;
  total_clear : nat -> nat -> Z;
  clear_percentage_var : nat -> nat -> float64
}.

Definition var (p : product) (f : nat -> nat -> Z) : array2 Z :=
  Array2 (fst (dims p)) (snd (dims p)) f.

Definition shape_eqb (s t : nat * nat) : bool :=
  Nat.eqb (fst s) (fst t) && Nat.eqb (snd s) (snd t).

(** [clear_percentage(dataset_in, clean_mask, intermediate_product=None)],
    lines 99-128.  [None] as a result is the [ValueError] raised by xarray
    (data that does not fit the coordinates) or numpy (operands that cannot
    be broadcast together).  The prior product is updated in place and
    returned; the embedding returns the updated value. *)
Definition clear_percentage (dataset_in : dataset) (clean_mask : mask3)
    (intermediate_product : option product) : option product :=
  let num_acq := Z.of_nat (length (time dataset_in)) in
  let num_clear := sum_axis0 clean_mask in
  match intermediate_product with
  | None =>
      if shape_eqb (shape num_clear)
           (length (latitude dataset_in), length (longitude dataset_in))
      then
        let tp := full (shape num_clear) num_acq in
        Some (Product (shape num_clear) (cell tp) (cell num_clear)
                (fun i j => true_divide (cell num_clear i j) (cell tp i j)))
      else None
  | Some ip =>
      let tp := fun i j => total_pixels ip i j + num_acq in
      match iadd (var ip (total_clear ip)) num_clear with
      | Some tc =>
          Some (Product (dims ip) tp (cell tc)
                  (fun i j => true_divide (cell tc i j) (tp i j)))
      | None => None
      end
  end.

(** A sequence of updates: the product returned for one chunk is the prior
    product of the call for the next, as the caller of [clear_percentage]
    threads it; an error ends the sequence. *)
Definition chunk : Type := (dataset * mask3)%type.

Fixpoint fold_chunks (cs : list chunk) (st : option product)
    : option (option product) :=
  match cs with
  | [] => Some st
  | (d, m) :: cs' =>
      match clear_percentage d m st with
      | Some st' => fold_chunks cs' (Some st')
      | None => None
      end
  end.

(** A location of a product. *)
Definition inside (s : nat * nat) (i j : nat) : Prop :=
  (i < fst s)%nat /\ (j < snd s)%nat.

(** Number of time slices in which location [(i, j)] is clear. *)
Definition clear_count (m : mask3) (i j : nat) : nat :=
  length (filter (fun t => mcell m t i j = true) (seq 0 (depth m))).

(** A chunk as the loader supplies it: the mask has the shape of the data. *)
Definition same_shape (d : dataset) (m : mask3) : Prop :=
  depth m = length (time d) /\
  mrows m = length (latitude d) /\
  mcols m = length (longitude d).

(** The shapes under which the update is defined for a chunk of the
    loader: the mask fits the coordinates of the data and, when there is a
    prior product, its grid. *)
Definition fits (d : dataset) (m : mask3) (st : option product) : Prop :=
  match st with
  | None => mrows m = length (latitude d) /\ mcols m = length (longitude d)
  | Some p => dims p = (mrows m, mcols m)
  end.

(** The invariant of the totals at one product. *)
Definition bounded (s : product) : Prop :=
  forall i j, 0 <= total_clear s i j <= total_pixels s i j.

Definition time_agrees (c : chunk) : Prop :=
  depth (snd c) = length (time (fst c)).

Definition on_grid (r c : nat) (ch : chunk) : Prop :=
  same_shape (fst ch) (snd ch) /\ mrows (snd ch) = r /\ mcols (snd ch) = c.

(** A chunk of [n] acquisitions over an [r] x [c] grid, from the slices of
    its mask. *)
Definition chunk_of (r c : nat) (slices : list (list (list bool))) : chunk :=
  (Dataset (map Z.of_nat (seq 0 (length slices)))
           (map (fun i => inject_Z (Z.of_nat i)) (seq 0 r))
           (map (fun j => inject_Z (Z.of_nat j)) (seq 0 c)),
   mask_of_slices r c slices).

End CloudCoverage.

(** ** Acquisition keys: [datetime.datetime] *)

Module Datetime.

(** A naive [datetime] as Python holds it.  The constructor of the Python
    class keeps every field in its calendar range. *)
Record datetime : Type := Dt {
  year : Z;
  month : Z;
  day : Z;
  hour : Z;
  minute : Z;
  second : Z;
  microsecond : Z
}.

Global Instance datetime_eq_dec : EqDecision datetime.
Proof. solve_decision. Defined.

Definition fields (d : datetime) : list Z :=
  [year d; month d; day d; hour d; minute d; second d; microsecond d].

Definition of_fields (l : list Z) : option datetime :=
  match l with
  | [y; mo; d; h; mi; s; us] => Some (Dt y mo d h mi s us)
  | _ => None
  end.

Global Instance datetime_countable : Countable datetime.
Proof.
  apply (inj_countable fields of_fields).
  intros []; reflexivity.
Defined.

(** Python compares two naive datetimes as the tuples of their fields. *)
Fixpoint lex_compare (a b : list Z) : comparison :=
  match a, b with
  | [], [] => Eq
  | [], _ :: _ => Lt
  | _ :: _, [] => Gt
  | x :: a', y :: b' =>
      match x ?= y with
      | Eq => lex_compare a' b'
      | c => c
      end
  end.

Definition compare (d e : datetime) : comparison :=
  lex_compare (fields d) (fields e).

Definition lt (d e : datetime) : Prop := compare d e = Lt.

(** The order [list.sort(reverse=True)] arranges by: [d] may stand before
    [e] when [e <= d]. *)
Definition before_desc (d e : datetime) : Prop := compare d e <> Lt.

Global Instance before_desc_dec d e : Decision (before_desc d e).
Proof. unfold before_desc. solve_decision. Defined.

(** One decimal digit, the last of [n]. *)
Definition digit (n : Z) : ascii :=
  ascii_of_nat (48 + Z.to_nat (n mod 10)).

Definition pad2 (n : Z) : string :=
  String (digit (n / 10)) (String (digit n) EmptyString).

Definition pad4 (n : Z) : string :=
  String (digit (n / 1000)) (String (digit (n / 100)) (pad2 n)).

(** [d.strftime("%m/%d/%Y")]: month and day as two zero-padded digits, the
    year with century as four (the format the Python documentation gives for
    years 1 to 9999). *)
Definition strftime_mdY (d : datetime) : string :=
  pad2 (month d) +:+ "/" +:+ pad2 (day d) +:+ "/" +:+ pad4 (year d).

(** The value of a decimal digit character. *)
Definition digit_value (c : ascii) : Z := Z.of_nat (nat_of_ascii c) - 48.

Fixpoint decimal_value (acc : Z) (s : string) : Z :=
  match s with
  | EmptyString => acc
  | String c s' => decimal_value (10 * acc + digit_value c) s'
  end.

End Datetime.

(** ** The metadata aggregator

    [Metadata] of [apps/cloud_coverage/models.py] (lines 163-226) and of
    [apps/spectral_anomaly/models.py] (lines 180-248): the method bodies of
    the two classes are the same text, so one embedding serves both. *)

Module Metadata.
Import Np Datetime.

(** The inner dictionary of one acquisition, [{'clean_pixels': n}].  The
    count is a numpy [int64]: [metadata_from_dataset] adds an [np.sum] to
    the initial [0]. *)
Record tally : Type := Tally { clean_pixels : Z }.

Global Instance tally_eq_dec : EqDecision tally.
Proof. solve_decision. Defined.

(** The metadata dictionary, keyed by acquisition time.  Keys of a [dict]
    are distinct; the order of insertion is not kept, no method below
    depends on it. *)
Abbreviation tally_dict := (gmap datetime tally).

(** The fields of the task record that the methods below assign. *)
Record metadata : Type := MetadataFields {
  pixel_count : Z;
  clean_pixel_count : Z;
  percentage_clean_pixels : float64;
  total_scenes : Z;
  scenes_processed : Z;
  acquisition_list : string;
  clean_pixels_per_acquisition : string;
  clean_pixel_percentages_per_acquisition : string
}.

(** One step of the loop of [combine_metadata]: [key] of [new], with its
    tally [v], against the dictionary [old] built so far. *)
Definition combine_step (key : datetime) (v : tally) (old : tally_dict)
    : tally_dict :=
  match old !! key with
  | Some o => <[key := Tally (clean_pixels o + clean_pixels v)]> old
  | None => <[key := v]> old
  end.

(** [combine_metadata(self, old, new)]: the loop over the keys of [new].
    [old] is updated in place and returned; the embedding returns the
    updated dictionary. *)
Definition combine_metadata (old new : tally_dict) : tally_dict :=
  map_fold combine_step old new.

(** What [final_metadata_from_dataset] reads of the composite: the two
    spatial coordinates and the data variables in their order, each with the
    values of its array. *)
Record composite : Type := Composite {
  latitude : list Q;
  longitude : list Q;
  data_vars : list (string * list Z)
}.

Definition no_data : Z := -9999.

(** [np.sum(values != -9999)]. *)
Definition count_valid (values : list Z) : Z :=
  Z.of_nat (length (filter (fun v => v ≠ no_data) values)).

(** [final_metadata_from_dataset(self, dataset)].  [None] is the
    [IndexError] of [list(dataset.data_vars)[0]] on a dataset without
    variables. *)
Definition final_metadata_from_dataset (self : metadata) (dataset : composite)
    : option metadata :=
  let pc := Z.of_nat (length (latitude dataset)) *
            Z.of_nat (length (longitude dataset)) in
  match data_vars dataset with
  | [] => None
  | (_, values) :: _ =>
      let cpc := count_valid values in
      Some (MetadataFields pc cpc (mul_int (true_divide cpc pc) 100)
              (total_scenes self) (scenes_processed self)
              (acquisition_list self) (clean_pixels_per_acquisition self)
              (clean_pixel_percentages_per_acquisition self))
  end.

(** [sep.join(l)]. *)
Fixpoint join (sep : string) (l : list string) : string :=
  match l with
  | [] => EmptyString
  | [s] => s
  | s :: l' => s +:+ sep +:+ join sep l'
  end.

(** [dates = list(metadata_dict.keys()); dates.sort(reverse=True)]. *)
Definition sorted_dates (metadata_dict : tally_dict) : list datetime :=
  merge_sort before_desc (map_to_list metadata_dict).*1.

(** [metadata_dict[date]['clean_pixels']] for a key of the dictionary. *)
Definition clean_of (metadata_dict : tally_dict) (date : datetime) : Z :=
  match metadata_dict !! date with
  | Some t => clean_pixels t
  | None => 0
  end.

Section WithStr.

(** [str] of a [float64], Python's shortest round-trip formatting. *)
Variable str_float : float64 -> string.

(** [str] of an [int64]. *)
Definition str_int (n : Z) : string := pretty n.

(** The three lists before they are joined. *)
Definition date_column (dates : list datetime) : list string :=
  map strftime_mdY dates.

Definition clean_column (md : tally_dict) (dates : list datetime)
    : list string :=
  map (fun date => str_int (clean_of md date)) dates.

(** [(metadata_dict[date]['clean_pixels'] * 100) / self.pixel_count]: the
    count being a numpy integer, a zero [pixel_count] gives an infinity or
    NaN rather than Python's [ZeroDivisionError]. *)
Definition percentage_of (self : metadata) (md : tally_dict)
    (date : datetime) : float64 :=
  true_divide (clean_of md date * 100) (pixel_count self).

Definition percentage_column (self : metadata) (md : tally_dict)
    (dates : list datetime) : list string :=
  map (fun date => str_float (percentage_of self md date)) dates.

(** [metadata_from_dict(self, metadata_dict)]. *)
Definition metadata_from_dict (self : metadata) (metadata_dict : tally_dict)
    : metadata :=
  let dates := sorted_dates metadata_dict in
  MetadataFields (pixel_count self) (clean_pixel_count self)
    (percentage_clean_pixels self)
    (Z.of_nat (length dates))
    (Z.of_nat (length dates))
    (join "," (date_column dates))
    (join "," (clean_column metadata_dict dates))
    (join "," (percentage_column self metadata_dict dates)).

End WithStr.

End Metadata.

(** ** The percentage as it is stored *)

Module StoredPercentage.
Import Metadata.

(** Line 210 (and 231 of the spectral-anomaly class) on binary64 values:
    [(clean_pixel_count / pixel_count) * 100], the two counts converted, the
    quotient rounded, and its product by 100 rounded again. *)
Definition percentage_binary64 (clean_pixel_count pixel_count : Z)
    : SpecFloat.spec_float :=
  Binary64.mul
    (Binary64.div (Binary64.of_int clean_pixel_count)
                  (Binary64.of_int pixel_count))
    (Binary64.of_int 100).

(** The binary64 that [final_metadata_from_dataset] stores in
    [percentage_clean_pixels], from the two counts it has just assigned. *)
Definition stored_percentage (self : metadata) (dataset : composite)
    : option SpecFloat.spec_float :=
  option_map
    (fun result =>
       percentage_binary64 (clean_pixel_count result) (pixel_count result))
    (final_metadata_from_dataset self dataset).

End StoredPercentage.

(** ** The spectral-anomaly query *)

Module SpectralAnomaly.

(** The compositing functions of [utils.data_cube_utilities.dc_mosaic]. *)
Inductive mosaic : Type :=
  | create_mosaic
  | create_median_mosaic
  | create_max_ndvi_mosaic
  | create_min_ndvi_mosaic.

Global Instance mosaic_eq_dec : EqDecision mosaic.
Proof. solve_decision. Defined.

(** What the three methods read of a [Query]: [self.compositor.id]. *)
Record query : Type := Query { compositor_id : string }.

(** [get_iterative], line 121. *)
Definition get_iterative (self : query) : bool :=
  bool_decide (compositor_id self ≠ "median_pixel").

(** [get_reverse_time], line 130. *)
Definition get_reverse_time (self : query) : bool :=
  bool_decide (compositor_id self = "most_recent").

(** The dictionary literal of lines 138-144. *)
Definition processing_methods : gmap string mosaic :=
  <["median_pixel" := create_median_mosaic]>
  (<["min_ndvi" := create_min_ndvi_mosaic]>
  (<["max_ndvi" := create_max_ndvi_mosaic]>
  (<["least_recent" := create_mosaic]>
  (<["most_recent" := create_mosaic]> ∅)))).

(** [get_processing_method], line 146: [dict.get] with a default. *)
Definition get_processing_method (self : query) : mosaic :=
  default create_mosaic (processing_methods !! compositor_id self).

End SpectralAnomaly.

(** ** Sums over a sequence of chunks *)

Module ChunkSums.
Import Np CloudCoverage.

(** Acquisitions in all the chunks of a sequence. *)
Definition acquisitions_seen (cs : list chunk) : Z :=
  foldr (fun c acc => Z.of_nat (length (time (fst c))) + acc) 0 cs.

(** Clear observations of location [(i, j)] in all the chunks. *)
Definition clear_seen (cs : list chunk) (i j : nat) : Z :=
  foldr (fun c acc => Z.of_nat (clear_count (snd c) i j) + acc) 0 cs.

(** A [float64] that is a finite number between [lo] and [hi]. *)
Definition finite_between (lo hi : Q) (x : float64) : Prop :=
  match x with
  | Finite q => Qle lo q /\ Qle q hi
  | _ => False
  end.

(** The percentage of a product is the quotient of its two totals. *)
Definition consistent (s : product) : Prop :=
  forall i j,
    clear_percentage_var s i j
    = true_divide (total_clear s i j) (total_pixels s i j).

(** The extents under which numpy broadcasts a mask onto a grid. *)
Definition broadcastable (m : mask3) (grid : nat * nat) : Prop :=
  (mrows m = fst grid \/ mrows m = 1%nat) /\
  (mcols m = snd grid \/ mcols m = 1%nat).

End ChunkSums.

(** ** Tallying a chunk into the metadata dictionary *)

Module MetadataDataset.
Import Np Datetime Metadata.

(** What [metadata_from_dataset] reads of [dataset]: the list
    [dataset.time.values.astype('M8[ms]').tolist()]. *)
Record timed_dataset : Type := TimedDataset { time : list datetime }.

(** [np.sum(clear_mask[t, :, :] == True)]: the clear cells of slice [t]. *)
Definition slice_clear (clear_mask : mask3) (t : nat) : Z :=
  sum_upto (mrows clear_mask) (fun i =>
    sum_upto (mcols clear_mask) (fun j =>
      int8_of_bool (mcell clear_mask t i j))).

(** The body of the loop of [metadata_from_dataset] for one acquisition,
    [clean_pixels] being the count of its slice: a missing key is first
    entered with the count 0, then the count of the slice is added. *)
Definition tally_step (clean_pixels : Z) (time : datetime)
    (metadata : tally_dict) : tally_dict :=
  match metadata !! time with
  | Some t => <[time := Tally (Metadata.clean_pixels t + clean_pixels)]>
                metadata
  | None => <[time := Tally (0 + clean_pixels)]>
              (<[time := Tally 0]> metadata)
  end.

(** The loop of [metadata_from_dataset] from position [metadata_index] on.
    [None] is the [IndexError] of [clear_mask[metadata_index, :, :]] on a
    mask with too few slices. *)
Fixpoint metadata_loop (clear_mask : mask3) (metadata_index : nat)
    (times : list datetime) (metadata : tally_dict) : option tally_dict :=
  match times with
  | [] => Some metadata
  | time :: rest =>
      if (metadata_index <? depth clear_mask)%nat then
        let clean_pixels := slice_clear clear_mask metadata_index in
        metadata_loop clear_mask (S metadata_index) rest
          (tally_step clean_pixels time metadata)
      else None
  end.

(** [metadata_from_dataset(self, metadata, dataset, clear_mask, parameters)]:
    [metadata] is updated in place and returned. *)
Definition metadata_from_dataset (metadata : tally_dict)
    (dataset : timed_dataset) (clear_mask : mask3) : option tally_dict :=
  metadata_loop clear_mask 0 (time dataset) metadata.

(** The sum of the [clean_pixels] of a dictionary. *)
Definition total_clean (md : tally_dict) : Z :=
  map_fold (fun _ t acc => Metadata.clean_pixels t + acc) 0 md.

(** The clear cells of the slices [start .. start + n - 1]. *)
Fixpoint slices_clear (clear_mask : mask3) (start n : nat) : Z :=
  match n with
  | O => 0
  | S k => slice_clear clear_mask start + slices_clear clear_mask (S start) k
  end.

(** The clear cells of the slices paired with the occurrences of [key] in
    [times], the first of which is slice [start]. *)
Fixpoint clear_for (clear_mask : mask3) (start : nat) (times : list datetime)
    (key : datetime) : Z :=
  match times with
  | [] => 0
  | time :: rest =>
      (if decide (time = key) then slice_clear clear_mask start else 0)
      + clear_for clear_mask (S start) rest key
  end.

End MetadataDataset.

(** ** Reading the joined columns back *)

Module Columns.

(** Python's [s.split(sep)] for a separator of one character. *)
Fixpoint split (sep : ascii) (s : string) : list string :=
  match s with
  | EmptyString => [EmptyString]
  | String c s' =>
      if decide (c = sep) then EmptyString :: split sep s'
      else match split sep s' with
           | [] => [String c EmptyString]
           | h :: t => String c h :: t
           end
  end.

(** [sep in s] for a separator of one character. *)
Fixpoint contains (sep : ascii) (s : string) : bool :=
  match s with
  | EmptyString => false
  | String c s' => bool_decide (c = sep) || contains sep s'
  end.

End Columns.

(** ** The query forms *)

Module QueryForms.

(** The end of a generator: exhausted, or the exception that ended it. *)
Inductive generator_end : Type :=
  | StopIteration
  | IndexError
  | AttributeError.

Section Fields.
Context {A : Type}.

(** The loop of [get_fields_with_labels] from position [idx] on: the pairs
    yielded, and how the generator ends.  [self] is given by its
    attributes. *)
Fixpoint fields_loop (self : gmap string A) (field_names : list string)
    (idx : nat) (labels : list string) : list (string * A) * generator_end :=
  match labels with
  | [] => ([], StopIteration)
  | label :: rest =>
      match field_names !! idx with
      | None => ([], IndexError)
      | Some name =>
          match self !! name with
          | None => ([], AttributeError)
          | Some v =>
              let '(yielded, e) := fields_loop self field_names (S idx) rest in
              ((label, v) :: yielded, e)
          end
      end
  end.

(** [get_fields_with_labels(self, labels, field_names)], the same text in
    both query classes. *)
Definition get_fields_with_labels (self : gmap string A)
    (labels field_names : list string) : list (string * A) * generator_end :=
  fields_loop self field_names 0 labels.

End Fields.

(** A value of the form dictionary: a string, or any other object (which
    is never equal to ['']). *)
Inductive form_value : Type :=
  | Text (s : string)
  | Object (id : Z).

Global Instance form_value_eq_dec : EqDecision form_value.
Proof. solve_decision. Defined.

(** [d[key] = default if key not in d or d[key] == '' else d[key]]. *)
Definition set_default (key default : string)
    (d : gmap string form_value) : gmap string form_value :=
  match d !! key with
  | None => <[key := Text default]> d
  | Some v =>
      if decide (v = Text "") then <[key := Text default]> d
      else <[key := v]> d
  end.

(** [{key: query_data[key] for key in valid_query_fields if key in
    query_data}]. *)
Definition select_fields (valid_query_fields : list string)
    (query_data : gmap string form_value) : gmap string form_value :=
  foldl (fun acc key =>
           match query_data !! key with
           | Some v => <[key := v]> acc
           | None => acc
           end) ∅ valid_query_fields.

(** The part of [get_or_create_query_from_post] before the database is
    asked: the form dictionary as the call leaves it ([query_data] is the
    caller's [form_data], assigned in place), and the arguments of the
    lookup.  [default_title] is ["Cloud Coverage Query"] in one class and
    ["Spectral Anomaly Query"] in the other. *)
Definition query_data_from_post (default_title : string)
    (valid_query_fields : list string) (form_data : gmap string form_value)
    : gmap string form_value * gmap string form_value :=
  let form_data := set_default "title" default_title form_data in
  let form_data := set_default "description" "None" form_data in
  (form_data, select_fields valid_query_fields form_data).

End QueryForms.

(** ** The dictionaries as Python holds them

    [combine_metadata] assigns [old[key] = new[key]]: the inner dictionary
    of [new] becomes an entry of [old], it is not copied.  Here the inner
    dictionaries live in a store and the outer dictionaries hold references
    to them, in insertion order. *)

Module MetadataRefs.
Import Datetime Metadata.

(** The store: the [clean_pixels] of each inner dictionary. *)
Abbreviation store := (gmap nat Z).

(** An outer dictionary: its keys, each with the reference it holds, in the
    order of insertion.  The keys of a dictionary are distinct. *)
Abbreviation refs := (list (datetime * nat)).

(** [d[ref]['clean_pixels']]; every reference of a dictionary is in the
    store. *)
Definition read (h : store) (ref : nat) : Z := default 0 (h !! ref).

(** [d[key]], when [key in d]. *)
Fixpoint assoc (d : refs) (key : datetime) : option nat :=
  match d with
  | [] => None
  | (k, ref) :: d' => if decide (k = key) then Some ref else assoc d' key
  end.

(** The loop of [combine_metadata] over the items of [new] still to visit. *)
Fixpoint combine_loop (items : refs) (old : refs) (h : store)
    : refs * store :=
  match items with
  | [] => (old, h)
  | (key, ref) :: rest =>
      match assoc old key with
      | Some target =>
          combine_loop rest old (<[target := read h target + read h ref]> h)
      | None => combine_loop rest (old ++ [(key, ref)]) h
      end
  end.

(** [combine_metadata(self, old, new)] on references: the dictionary
    returned (the object [old]) and the store after the call. *)
Definition combine_metadata_ref (old new : refs) (h : store) : refs * store :=
  combine_loop new old h.

(** The contents of an outer dictionary in a store. *)
Definition view (h : store) (d : refs) : tally_dict :=
  list_to_map (map (fun p => (p.1, Tally (read h p.2))) d).

(** What the visits of [items] add to the inner dictionary [ref] of [old]. *)
Fixpoint added (items : refs) (old : refs) (h : store) (ref : nat) : Z :=
  match items with
  | [] => 0
  | (key, r) :: rest =>
      match assoc old key with
      | Some target => if decide (target = ref) then read h r else 0
      | None => 0
      end + added rest old h ref
  end.

(** No item of [items] reads an inner dictionary that a visit writes. *)
Definition quiet (items old : refs) : Prop :=
  forall k r k' r' target,
    (k, r) ∈ items -> (k', r') ∈ items ->
    assoc old k' = Some target -> r <> target.

End MetadataRefs.

(** * Properties *)

(** ** The accumulator *)

Module AccumulatorFacts.
Import Np CloudCoverage.

Lemma seq_snoc (n : nat) : seq 0 (S n) = seq 0 n ++ [n].
Proof. rewrite seq_S. reflexivity. Qed.

(** The axis-0 sum of a boolean column counts its [true] cells. *)
Lemma sum_upto_counts (f : nat -> bool) (n : nat) :
  sum_upto n (fun t => int8_of_bool (f t))
  = Z.of_nat (length (filter (fun t => f t = true) (seq 0 n))).
Proof.
  induction n as [|n IH]; [reflexivity|].
  rewrite seq_snoc, filter_app, length_app, Nat2Z.inj_add.
  cbn [sum_upto]. rewrite IH. f_equal.
  rewrite filter_cons, filter_nil.
  destruct (f n);
    [rewrite decide_True by done | rewrite decide_False by done];
    reflexivity.
Qed.

Lemma sum_axis0_counts (m : mask3) (i j : nat) :
  cell (sum_axis0 m) i j = Z.of_nat (clear_count m i j).
Proof. unfold sum_axis0, clear_count. cbn [cell]. apply sum_upto_counts. Qed.

Lemma sum_upto_bounds (f : nat -> bool) (n : nat) :
  0 <= sum_upto n (fun t => int8_of_bool (f t)) <= Z.of_nat n.
Proof.
  induction n as [|n IH]; cbn [sum_upto]; [lia|].
  set (s := sum_upto n _) in *.
  destruct (f n); cbn [int8_of_bool]; lia.
Qed.

Lemma sum_axis0_bounds (m : mask3) (i j : nat) :
  0 <= cell (sum_axis0 m) i j <= Z.of_nat (depth m).
Proof. apply sum_upto_bounds. Qed.

Lemma stretches_refl (n k : nat) : n = k -> stretches n k = true.
Proof. intros ->. unfold stretches. rewrite Nat.eqb_refl. reflexivity. Qed.

(** The update without a prior product. *)
Lemma clear_percentage_init (d : dataset) (m : mask3) :
  fits d m None ->
  clear_percentage d m None
  = Some (Product (mrows m, mcols m)
            (fun _ _ => Z.of_nat (length (time d)))
            (cell (sum_axis0 m))
            (fun i j => true_divide (cell (sum_axis0 m) i j)
                          (Z.of_nat (length (time d))))).
Proof.
  intros [Hr Hc]. unfold clear_percentage, shape_eqb, shape.
  cbn [sum_axis0 rows cols fst snd].
  rewrite Hr, Hc, !Nat.eqb_refl. reflexivity.
Qed.

(** The update of a prior product, when it is defined. *)
Lemma clear_percentage_step (d : dataset) (m : mask3) (p s : product) :
  clear_percentage d m (Some p) = Some s ->
  dims s = dims p /\
  forall i j,
    total_pixels s i j = total_pixels p i j + Z.of_nat (length (time d)) /\
    total_clear s i j
    = total_clear p i j
      + cell (sum_axis0 m) (bidx (mrows m) i) (bidx (mcols m) j) /\
    clear_percentage_var s i j
    = true_divide (total_clear s i j) (total_pixels s i j).
Proof.
  unfold clear_percentage, iadd, var.
  cbn [rows cols cell sum_axis0].
  destruct (stretches _ _ && stretches _ _); [|discriminate].
  intros H; injection H as <-. cbn. auto.
Qed.

Lemma clear_percentage_defined (d : dataset) (m : mask3) (p : product) :
  fits d m (Some p) -> exists s, clear_percentage d m (Some p) = Some s.
Proof.
  cbn [fits]. intros Hd. unfold clear_percentage, iadd, var.
  cbn [rows cols sum_axis0]. rewrite Hd. cbn [fst snd].
  rewrite !stretches_refl by reflexivity. cbn. eauto.
Qed.

Lemma bidx_same (n i : nat) : (i < n)%nat -> bidx n i = i.
Proof.
  unfold bidx. intros Hi.
  destruct (Nat.eqb_spec n 1) as [->|]; [lia|reflexivity].
Qed.

Lemma clear_percentage_bounded (d : dataset) (m : mask3)
    (st : option product) (s : product) :
  depth m = length (time d) ->
  (forall p, st = Some p -> bounded p) ->
  clear_percentage d m st = Some s ->
  bounded s.
Proof.
  intros Ht Hst Hs i j. destruct st as [p|].
  - apply clear_percentage_step in Hs as [_ Hs].
    destruct (Hs i j) as (-> & -> & _).
    pose proof (Hst p eq_refl i j).
    pose proof (sum_axis0_bounds m (bidx (mrows m) i) (bidx (mcols m) j)).
    lia.
  - unfold clear_percentage in Hs.
    destruct (shape_eqb _ _); [|discriminate].
    injection Hs as <-. unfold full. cbn [total_clear total_pixels cell].
    pose proof (sum_axis0_bounds m i j) as Hb.
    unfold sum_axis0 in *. cbn [cell] in *. lia.
Qed.

Lemma fold_chunks_bounded (cs : list chunk) (st st' : option product) :
  Forall time_agrees cs ->
  (forall p, st = Some p -> bounded p) ->
  fold_chunks cs st = Some st' ->
  forall s, st' = Some s -> bounded s.
Proof.
  intros Hcs. revert st. induction Hcs as [|[d m] cs Hc _ IH]; intros st Hst.
  - cbn. intros [= <-]. exact Hst.
  - cbn [fold_chunks].
    destruct (clear_percentage d m st) as [s1|] eqn:E; [|discriminate].
    apply IH. intros p [= <-].
    exact (clear_percentage_bounded d m st s1 Hc Hst E).
Qed.

(** On a common grid the fold is defined, and its product keeps the grid. *)
Lemma fold_chunks_defined (r c : nat) (cs : list chunk) (st : option product) :
  Forall (on_grid r c) cs ->
  (forall p, st = Some p -> dims p = (r, c)) ->
  exists st', fold_chunks cs st = Some st'.
Proof.
  intros Hcs. revert st.
  induction Hcs as [|[d m] cs (Hs & Hr & Hc) _ IH]; intros st Hst.
  - cbn. eauto.
  - cbn [fold_chunks fst snd] in *.
    destruct st as [p|].
    + destruct (clear_percentage_defined d m p) as [s Es].
      { cbn. rewrite Hr, Hc. apply Hst. reflexivity. }
      rewrite Es. apply IH. intros q [= <-].
      apply clear_percentage_step in Es as [-> _]. apply Hst. reflexivity.
    + destruct Hs as (_ & Hlat & Hlon).
      rewrite clear_percentage_init by (split; assumption).
      apply IH. intros q [= <-]. cbn. congruence.
Qed.

End AccumulatorFacts.

Module AccumulatorClaims.
Import Np CloudCoverage AccumulatorFacts.

(** C1.  For a chunk whose mask has the shape of its data, with [n] time
    slices: without a prior product the update returns a product whose
    [total_pixels] is [n] and whose [total_clear] is the number of clear
    slices, at every location; with a prior product on the same grid it adds
    [n] to [total_pixels] and the number of clear slices to [total_clear], at
    every location.  In particular a first chunk of 3 acquisitions all clear
    at [(0, 0)] followed by this chunk, if it has 2 acquisitions of which 1
    is clear there, gives 5, 4 and 0.8 at [(0, 0)]. *)
Theorem clear_percentage_accumulates (d : dataset) (m : mask3)
    (Hshape : same_shape d m) :
  (exists s,
     clear_percentage d m None = Some s /\
     dims s = (length (latitude d), length (longitude d)) /\
     forall i j, inside (dims s) i j ->
       total_pixels s i j = Z.of_nat (length (time d)) /\
       total_clear s i j = Z.of_nat (clear_count m i j)) /\
  (forall p, dims p = (mrows m, mcols m) ->
     exists s,
       clear_percentage d m (Some p) = Some s /\
       dims s = dims p /\
       forall i j, inside (dims s) i j ->
         total_pixels s i j = total_pixels p i j + Z.of_nat (length (time d)) /\
         total_clear s i j = total_clear p i j + Z.of_nat (clear_count m i j)) /\
  (forall d1 m1,
     same_shape d1 m1 ->
     (mrows m1, mcols m1) = (mrows m, mcols m) ->
     inside (mrows m, mcols m) 0 0 ->
     length (time d1) = 3%nat -> clear_count m1 0 0 = 3%nat ->
     length (time d) = 2%nat -> clear_count m 0 0 = 1%nat ->
     exists s1 s2,
       clear_percentage d1 m1 None = Some s1 /\
       clear_percentage d m (Some s1) = Some s2 /\
       total_pixels s2 0 0 = 5 /\
       total_clear s2 0 0 = 4 /\
       clear_percentage_var s2 0 0 = Finite (4 # 5)).
Proof.
  assert (Hprior : forall p, dims p = (mrows m, mcols m) ->
     exists s,
       clear_percentage d m (Some p) = Some s /\
       dims s = dims p /\
       (forall i j, inside (dims s) i j ->
         total_pixels s i j = total_pixels p i j + Z.of_nat (length (time d)) /\
         total_clear s i j = total_clear p i j + Z.of_nat (clear_count m i j)) /\
       forall i j, clear_percentage_var s i j
                   = true_divide (total_clear s i j) (total_pixels s i j)).
  { intros p Hp. destruct (clear_percentage_defined d m p Hp) as [s Es].
    exists s. split; [exact Es|].
    apply clear_percentage_step in Es as [Hd Hs].
    split; [exact Hd|]. split.
    - intros i j [Hi Hj]. rewrite Hd, Hp in Hi, Hj. cbn in Hi, Hj.
      destruct (Hs i j) as (-> & -> & _).
      rewrite !bidx_same, sum_axis0_counts by assumption. auto.
    - intros i j. apply Hs. }
  destruct Hshape as (Ht & Hr & Hc).
  split; [|split].
  - eexists. split; [apply clear_percentage_init; split; assumption|].
    cbn [dims total_pixels total_clear]. split; [congruence|].
    intros i j _. split; [reflexivity|apply sum_axis0_counts].
  - intros p Hp. destruct (Hprior p Hp) as (s & Es & Hd & Hs & _). eauto.
  - intros d1 m1 (Ht1 & Hr1 & Hc1) Hgrid Hin Hn1 Hc1' Hn2 Hc2'.
    eexists.
    destruct (Hprior (Product (mrows m1, mcols m1)
                 (fun _ _ => Z.of_nat (length (time d1)))
                 (cell (sum_axis0 m1))
                 (fun i j => true_divide (cell (sum_axis0 m1) i j)
                               (Z.of_nat (length (time d1))))))
      as (s2 & Es2 & Hd2 & Hs2 & Hq2); [exact Hgrid|].
    exists s2. split; [apply clear_percentage_init; split; assumption|].
    split; [exact Es2|].
    assert (Hin2 : inside (dims s2) 0 0).
    { rewrite Hd2. cbn [dims]. rewrite Hgrid. exact Hin. }
    destruct (Hs2 _ _ Hin2) as [Hp Hcl].
    cbn [total_pixels total_clear] in Hp, Hcl.
    rewrite sum_axis0_counts in Hcl.
    rewrite Hn1, Hn2 in Hp. rewrite Hc1', Hc2' in Hcl.
    rewrite Hq2, Hp, Hcl. auto.
Qed.

(** The scenario of C1 on a one-pixel grid: three clear acquisitions, then
    two of which the first is clear. *)
Lemma clear_percentage_accumulates_witness :
  exists s1 s2,
    clear_percentage (fst (chunk_of 1 1 [[[true]]; [[true]]; [[true]]]))
      (snd (chunk_of 1 1 [[[true]]; [[true]]; [[true]]])) None = Some s1 /\
    clear_percentage (fst (chunk_of 1 1 [[[true]]; [[false]]]))
      (snd (chunk_of 1 1 [[[true]]; [[false]]])) (Some s1) = Some s2 /\
    total_pixels s2 0 0 = 5 /\
    total_clear s2 0 0 = 4 /\
    clear_percentage_var s2 0 0 = Finite (4 # 5).
Proof.
  refine (proj2 (proj2 (clear_percentage_accumulates
    (fst (chunk_of 1 1 [[[true]]; [[false]]]))
    (snd (chunk_of 1 1 [[[true]]; [[false]]])) _))
    (fst (chunk_of 1 1 [[[true]]; [[true]]; [[true]]]))
    (snd (chunk_of 1 1 [[[true]]; [[true]]; [[true]]])) _ _ _ _ _ _ _);
    try reflexivity; repeat split; cbn; lia.
Defined.

(** C2, as the code has it.  When the shapes fit, the update returns a
    product whose [clear_percentage] is, at every location, the float64
    quotient of [total_clear] by [total_pixels].  No error is raised at a
    location whose [total_pixels] is zero, and the value there is not zero:
    it is NaN when [total_clear] is zero too, and infinite otherwise. *)
Theorem clear_percentage_is_quotient (d : dataset) (m : mask3)
    (st : option product) (Hfit : fits d m st) :
  exists s,
    clear_percentage d m st = Some s /\
    forall i j,
      clear_percentage_var s i j
      = true_divide (total_clear s i j) (total_pixels s i j) /\
      (total_pixels s i j = 0 ->
         is_zero (clear_percentage_var s i j) = false /\
         (total_clear s i j = 0 -> clear_percentage_var s i j = NaN) /\
         (total_clear s i j <> 0 ->
            clear_percentage_var s i j = Inf (total_clear s i j <? 0))).
Proof.
  assert (Hq : forall a b, b = 0 ->
            is_zero (true_divide a b) = false /\
            (a = 0 -> true_divide a b = NaN) /\
            (a <> 0 -> true_divide a b = Inf (a <? 0))).
  { intros a b ->. unfold true_divide. cbn [Z.eqb].
    destruct (Z.eqb_spec a 0); repeat split; intros; congruence. }
  destruct st as [p|].
  - destruct (clear_percentage_defined d m p Hfit) as [s Es].
    exists s. split; [exact Es|]. intros i j.
    apply clear_percentage_step in Es as [_ Hs].
    destruct (Hs i j) as (_ & _ & ->). split; [reflexivity|apply Hq].
  - eexists. split; [apply clear_percentage_init; exact Hfit|].
    intros i j. cbn [clear_percentage_var total_clear total_pixels].
    split; [reflexivity|apply Hq].
Qed.

Lemma clear_percentage_is_quotient_witness :
  exists s,
    clear_percentage (fst (chunk_of 1 1 [[[true]]; [[false]]]))
      (snd (chunk_of 1 1 [[[true]]; [[false]]])) None = Some s /\
    forall i j,
      clear_percentage_var s i j
      = true_divide (total_clear s i j) (total_pixels s i j) /\
      (total_pixels s i j = 0 ->
         is_zero (clear_percentage_var s i j) = false /\
         (total_clear s i j = 0 -> clear_percentage_var s i j = NaN) /\
         (total_clear s i j <> 0 ->
            clear_percentage_var s i j = Inf (total_clear s i j <? 0))).
Proof.
  apply (clear_percentage_is_quotient
           (fst (chunk_of 1 1 [[[true]]; [[false]]]))
           (snd (chunk_of 1 1 [[[true]]; [[false]]])) None).
  split; reflexivity.
Defined.

(** C2 as the specification words it fails: the first update with a chunk of
    no time slice over one pixel leaves [total_pixels] at zero there, and the
    percentage is NaN, which is not zero. *)
Lemma zero_pixels_percentage_not_zero :
  option_map
    (fun s => (total_pixels s 0 0, clear_percentage_var s 0 0,
               is_zero (clear_percentage_var s 0 0)))
    (clear_percentage (fst (chunk_of 1 1 [])) (snd (chunk_of 1 1 [])) None)
  = Some (0, NaN, false).
Proof. reflexivity. Qed.

(** C3.  Along every sequence of updates, started without a product, whose
    chunks each have a mask with as many time slices as the data, the product
    after every update has [0 <= total_clear <= total_pixels] at every
    location; and on a common grid every update of the sequence is defined. *)
Theorem totals_stay_bounded (cs : list chunk)
    (Hcs : Forall time_agrees cs) (k : nat) :
  (forall s, fold_chunks (take k cs) None = Some (Some s) ->
     forall i j, 0 <= total_clear s i j <= total_pixels s i j) /\
  (forall r c, Forall (on_grid r c) cs ->
     exists st, fold_chunks (take k cs) None = Some st).
Proof.
  split.
  - intros s Hs.
    apply (fold_chunks_bounded (take k cs) None (Some s));
      [apply Forall_take; exact Hcs|discriminate|exact Hs|reflexivity].
  - intros r c Hg. apply (fold_chunks_defined r c).
    + apply Forall_take. exact Hg.
    + discriminate.
Qed.

Lemma totals_stay_bounded_witness :
  (forall s,
     fold_chunks
       (take 2 [chunk_of 1 1 [[[true]]; [[true]]; [[true]]];
                chunk_of 1 1 [[[true]]; [[false]]]]) None = Some (Some s) ->
     forall i j, 0 <= total_clear s i j <= total_pixels s i j) /\
  (forall r c,
     Forall (on_grid r c)
       [chunk_of 1 1 [[[true]]; [[true]]; [[true]]];
        chunk_of 1 1 [[[true]]; [[false]]]] ->
     exists st,
       fold_chunks
         (take 2 [chunk_of 1 1 [[[true]]; [[true]]; [[true]]];
                  chunk_of 1 1 [[[true]]; [[false]]]]) None = Some st).
Proof.
  apply (totals_stay_bounded
           [chunk_of 1 1 [[[true]]; [[true]]; [[true]]];
            chunk_of 1 1 [[[true]]; [[false]]]]).
  repeat constructor.
Defined.

(** C7.  A chunk without time slices, applied to a product on the grid of
    its (empty) mask, is accepted and leaves [total_pixels] and
    [total_clear] as they were at every location. *)
Theorem empty_chunk_keeps_totals (d : dataset) (m : mask3) (p : product)
    (Hd : time d = []) (Hm : depth m = 0%nat) (Hfit : fits d m (Some p)) :
  exists s,
    clear_percentage d m (Some p) = Some s /\
    dims s = dims p /\
    forall i j,
      total_pixels s i j = total_pixels p i j /\
      total_clear s i j = total_clear p i j.
Proof.
  destruct (clear_percentage_defined d m p Hfit) as [s Es].
  exists s. split; [exact Es|].
  apply clear_percentage_step in Es as [Hdims Hs].
  split; [exact Hdims|]. intros i j.
  destruct (Hs i j) as (-> & -> & _).
  rewrite Hd. unfold sum_axis0. cbn [cell length]. rewrite Hm.
  cbn [sum_upto]. lia.
Qed.

Lemma empty_chunk_keeps_totals_witness :
  exists s,
    clear_percentage (fst (chunk_of 1 1 [])) (snd (chunk_of 1 1 []))
      (Some (Product (1%nat, 1%nat) (fun _ _ => 5) (fun _ _ => 4)
               (fun _ _ => Finite (4 # 5)))) = Some s /\
    dims s = (1%nat, 1%nat) /\
    forall i j, total_pixels s i j = 5 /\ total_clear s i j = 4.
Proof.
  apply (empty_chunk_keeps_totals (fst (chunk_of 1 1 []))
           (snd (chunk_of 1 1 []))
           (Product (1%nat, 1%nat) (fun _ _ => 5) (fun _ _ => 4)
              (fun _ _ => Finite (4 # 5)))); reflexivity.
Defined.

End AccumulatorClaims.

(** ** The order of acquisition keys *)

Module DatetimeFacts.
Import Datetime.

Lemma lex_compare_eq (a b : list Z) : lex_compare a b = Eq -> a = b.
Proof.
  revert b. induction a as [|x a IH]; intros [|y b]; cbn; try discriminate.
  - reflexivity.
  - destruct (Z.compare_spec x y) as [->| |]; try discriminate.
    intros H. f_equal. apply IH, H.
Qed.

Lemma lex_compare_refl (a : list Z) : lex_compare a a = Eq.
Proof. induction a as [|x a IH]; cbn; [|rewrite Z.compare_refl]; auto. Qed.

Lemma lex_compare_antisym (a b : list Z) :
  lex_compare b a = CompOpp (lex_compare a b).
Proof.
  revert b. induction a as [|x a IH]; intros [|y b]; cbn; try reflexivity.
  rewrite (Z.compare_antisym x y).
  destruct (x ?= y); cbn; auto.
Qed.

Lemma lex_compare_lt_trans (a b c : list Z) :
  lex_compare a b = Lt -> lex_compare b c = Lt -> lex_compare a c = Lt.
Proof.
  revert b c. induction a as [|x a IH]; intros [|y b] [|z c]; cbn;
    try discriminate; try reflexivity.
  destruct (Z.compare_spec x y) as [->| |]; try discriminate.
  - destruct (z ?= y) eqn:E; rewrite (Z.compare_antisym z y), E; cbn;
      try discriminate; eauto.
  - intros _. destruct (Z.compare_spec y z) as [->| |]; try discriminate.
    + intros _. apply Z.compare_lt_iff in H. rewrite H. reflexivity.
    + intros _. assert (x < z) as Hxz by lia.
      apply Z.compare_lt_iff in Hxz. rewrite Hxz. reflexivity.
Qed.

Lemma fields_inj (d e : datetime) : fields d = fields e -> d = e.
Proof. destruct d, e. cbn. intros [= -> -> -> -> -> -> ->]. reflexivity. Qed.

Lemma compare_eq (d e : datetime) : compare d e = Eq -> d = e.
Proof. intros H. apply fields_inj, lex_compare_eq, H. Qed.

Lemma compare_antisym (d e : datetime) :
  compare e d = CompOpp (compare d e).
Proof. apply lex_compare_antisym. Qed.

Lemma lt_trans (d e f : datetime) : lt d e -> lt e f -> lt d f.
Proof. apply lex_compare_lt_trans. Qed.

Lemma lt_irrefl (d : datetime) : ~ lt d d.
Proof. unfold lt, compare. rewrite lex_compare_refl. discriminate. Qed.

Global Instance before_desc_total : Total before_desc.
Proof.
  intros d e. unfold before_desc. rewrite (compare_antisym d e).
  destruct (compare d e); cbn; auto.
Qed.

Global Instance before_desc_trans : Transitive before_desc.
Proof.
  intros d e f. unfold before_desc. intros Hde Hef Hdf.
  destruct (compare d e) eqn:E1; [| congruence |].
  - apply compare_eq in E1 as ->. congruence.
  - destruct (compare e f) eqn:E2; [| congruence |].
    + apply compare_eq in E2 as ->. congruence.
    + assert (lt f e) as H1.
      { unfold lt. rewrite (compare_antisym e f), E2. reflexivity. }
      assert (lt e d) as H2.
      { unfold lt. rewrite (compare_antisym d e), E1. reflexivity. }
      pose proof (lt_trans f e d H1 H2) as H3.
      unfold lt in H3. rewrite (compare_antisym d f), Hdf in H3.
      discriminate.
Qed.

(** Distinct keys arranged by [before_desc] descend strictly. *)
Lemma before_desc_strict (d e : datetime) :
  before_desc d e -> d <> e -> lt e d.
Proof.
  unfold before_desc, lt. intros H Hne.
  rewrite (compare_antisym d e).
  destruct (compare d e) eqn:E; [|congruence|reflexivity].
  apply compare_eq in E. contradiction.
Qed.

Lemma sorted_nodup_strict (l : list datetime) :
  StronglySorted before_desc l -> NoDup l ->
  StronglySorted (fun d e => lt e d) l.
Proof.
  induction 1 as [|d l Hl IH Hd]; intros Hnd; constructor.
  - apply IH. apply NoDup_cons in Hnd as [_ ?]. assumption.
  - apply NoDup_cons in Hnd as [Hin _].
    apply Forall_forall. intros e He.
    apply before_desc_strict.
    + rewrite Forall_forall in Hd. apply Hd, He.
    + intros ->. apply Hin. assumption.
Qed.

Global Instance before_desc_antisym : AntiSymm (=) before_desc.
Proof.
  intros d e Hde Hed. destruct (decide (d = e)) as [|Hne]; [assumption|].
  pose proof (before_desc_strict d e Hde Hne) as H1.
  assert (e <> d) as Hne' by congruence.
  pose proof (before_desc_strict e d Hed Hne') as H2.
  destruct (lt_irrefl d (lt_trans d e d H2 H1)).
Qed.

(** Reading back the digits that [strftime] writes. *)
Lemma digit_value_digit (n : Z) : digit_value (digit n) = n mod 10.
Proof.
  unfold digit_value, digit.
  assert (0 <= n mod 10 < 10) as Hr by (apply Z.mod_pos_bound; lia).
  rewrite nat_ascii_embedding by lia. lia.
Qed.

Lemma decimal_pad2 (n : Z) : 0 <= n < 100 -> decimal_value 0 (pad2 n) = n.
Proof.
  intros Hn. unfold pad2. cbn [decimal_value].
  rewrite !digit_value_digit.
  Z.div_mod_to_equations. lia.
Qed.

Lemma decimal_pad4 (n : Z) : 0 <= n < 10000 -> decimal_value 0 (pad4 n) = n.
Proof.
  intros Hn. unfold pad4, pad2. cbn [decimal_value].
  rewrite !digit_value_digit.
  Z.div_mod_to_equations. lia.
Qed.

End DatetimeFacts.

(** ** The metadata aggregator *)

Module MetadataFacts.
Import Np Datetime Metadata DatetimeFacts.

(** What [combine_metadata] leaves under each key. *)
Lemma combine_metadata_lookup (old new : tally_dict) (key : datetime) :
  combine_metadata old new !! key
  = match old !! key, new !! key with
    | Some o, Some n => Some (Tally (clean_pixels o + clean_pixels n))
    | Some o, None => Some o
    | None, other => other
    end.
Proof.
  unfold combine_metadata. revert key.
  apply (map_fold_weak_ind
           (fun r m => forall key : datetime,
              r !! key
              = match old !! key, m !! key with
                | Some o, Some n =>
                    Some (Tally (clean_pixels o + clean_pixels n))
                | Some o, None => Some o
                | None, other => other
                end)).
  - intros key. rewrite lookup_empty. destruct (old !! key); reflexivity.
  - intros i x m r Hi IH key. unfold combine_step.
    pose proof (IH i) as Hri. rewrite Hi in Hri.
    destruct (decide (key = i)) as [->|Hne].
    + rewrite (lookup_insert_eq m). rewrite Hri.
      destruct (old !! i); rewrite lookup_insert_eq; reflexivity.
    + rewrite (lookup_insert_ne m) by congruence.
      destruct (r !! i); rewrite lookup_insert_ne by congruence; apply IH.
Qed.

Lemma sorted_dates_perm (md : tally_dict) :
  sorted_dates md ≡ₚ (map_to_list md).*1.
Proof. apply merge_sort_Permutation. Qed.

Lemma sorted_dates_length (md : tally_dict) :
  length (sorted_dates md) = size md.
Proof.
  rewrite sorted_dates_perm, length_fmap. apply length_map_to_list.
Qed.

Lemma sorted_dates_elem (md : tally_dict) (date : datetime) :
  date ∈ sorted_dates md <-> is_Some (md !! date).
Proof.
  rewrite sorted_dates_perm, list_elem_of_fmap. split.
  - intros ([k t] & -> & Hin). apply elem_of_map_to_list in Hin.
    cbn. eauto.
  - intros [t Ht]. exists (date, t). split; [reflexivity|].
    apply elem_of_map_to_list, Ht.
Qed.

Lemma sorted_dates_nodup (md : tally_dict) : NoDup (sorted_dates md).
Proof. rewrite sorted_dates_perm. apply NoDup_fst_map_to_list. Qed.

Lemma sorted_dates_descending (md : tally_dict) :
  StronglySorted (fun d e => lt e d) (sorted_dates md).
Proof.
  apply sorted_nodup_strict; [|apply sorted_dates_nodup].
  apply StronglySorted_merge_sort; apply _.
Qed.

(** The descending arrangement of the keys is unique: the result of the
    sort does not depend on the algorithm that produces it. *)
Lemma sorted_dates_unique (md : tally_dict) (l : list datetime) :
  l ≡ₚ (map_to_list md).*1 -> StronglySorted before_desc l ->
  l = sorted_dates md.
Proof.
  intros Hperm Hsorted.
  apply (StronglySorted_unique before_desc); [exact Hsorted| |].
  - apply StronglySorted_merge_sort; apply _.
  - rewrite sorted_dates_perm. exact Hperm.
Qed.

Lemma count_valid_all_no_data (values : list Z) :
  Forall (fun v => v = -9999) values -> count_valid values = 0.
Proof.
  unfold count_valid. induction 1 as [|v values Hv _ IH]; [reflexivity|].
  rewrite filter_cons, decide_False; [exact IH|].
  intros Hne. apply Hne. exact Hv.
Qed.

End MetadataFacts.

(** ** Conversions to binary64 *)

Module Binary64Facts.
Import SpecFloat Binary64.

Lemma digits2_lower (p : positive) :
  2 ^ (Zpos (digits2_pos p) - 1) <= Zpos p.
Proof.
  induction p as [p IH|p IH|]; cbn [digits2_pos].
  - rewrite Pos2Z.inj_succ. replace (Z.succ (Zpos (digits2_pos p)) - 1)
      with (Z.succ (Zpos (digits2_pos p) - 1)) by lia.
    rewrite Z.pow_succ_r by lia. lia.
  - rewrite Pos2Z.inj_succ. replace (Z.succ (Zpos (digits2_pos p)) - 1)
      with (Z.succ (Zpos (digits2_pos p) - 1)) by lia.
    rewrite Z.pow_succ_r by lia. lia.
  - reflexivity.
Qed.

Lemma shr_1_m (mrs : shr_record) :
  0 <= shr_m mrs -> shr_m (shr_1 mrs) = shr_m mrs / 2.
Proof.
  destruct mrs as [m r s]. cbn [shr_m shr_1].
  destruct m as [|[p|p|]|p]; intros Hm; cbn [shr_m]; try lia.
  - reflexivity.
  - rewrite Pos2Z.inj_xI. symmetry.
    rewrite Z.add_comm, Z.mul_comm. rewrite Z.div_add by lia. reflexivity.
  - rewrite Pos2Z.inj_xO. symmetry. rewrite Z.mul_comm.
    apply Z.div_mul. lia.
  - reflexivity.
Qed.

Lemma pow2_positive (n : Z) : 0 <= n -> 0 < 2 ^ n.
Proof. intros Hn. apply Z.pow_pos_nonneg; lia. Qed.

Lemma shr_iter_m (p : positive) :
  forall mrs, 0 <= shr_m mrs ->
    shr_m (iter_pos shr_1 p mrs) = shr_m mrs / 2 ^ Zpos p.
Proof.
  induction p as [p IH|p IH|]; intros mrs Hm; cbn [iter_pos].
  - pose proof (pow2_positive (Zpos p) ltac:(lia)) as Hp.
    assert (0 <= shr_m (shr_1 mrs)) as H1
      by (rewrite shr_1_m by assumption; apply Z.div_pos; lia).
    assert (0 <= shr_m (iter_pos shr_1 p (shr_1 mrs))) as H2
      by (rewrite IH by assumption; apply Z.div_pos; lia).
    rewrite IH, IH, shr_1_m by assumption.
    rewrite !Z.div_div by lia.
    f_equal.
    replace (Zpos p~1) with (Z.succ (Zpos p + Zpos p)) by lia.
    rewrite Z.pow_succ_r, Z.pow_add_r by lia. lia.
  - pose proof (pow2_positive (Zpos p) ltac:(lia)) as Hp.
    assert (0 <= shr_m (iter_pos shr_1 p mrs)) as H2
      by (rewrite IH by assumption; apply Z.div_pos; lia).
    rewrite IH, IH by assumption.
    rewrite !Z.div_div by lia.
    f_equal.
    replace (Zpos p~0) with (Zpos p + Zpos p) by lia.
    rewrite Z.pow_add_r by lia. reflexivity.
  - rewrite shr_1_m by assumption. rewrite Z.pow_1_r. reflexivity.
Qed.

(** Aligning a positive mantissa to its exponent keeps it positive, as long
    as the exponent stays clear of the subnormal range. *)
Lemma shr_fexp_positive (m : positive) (e : Z) :
  -1073 <= e ->
  0 < shr_m (fst (shr_fexp prec emax (Zpos m) e loc_Exact)) /\
  -1073 <= snd (shr_fexp prec emax (Zpos m) e loc_Exact).
Proof.
  intros He. unfold shr_fexp, shr. cbn [shr_record_of_loc Zdigits2].
  set (d := Zpos (digits2_pos m)).
  assert (1 <= d) as Hd by (subst d; lia).
  pose proof (digits2_lower m) as Hlow. fold d in Hlow.
  destruct (fexp prec emax (d + e) - e) as [|n|n] eqn:En; cbn [fst snd shr_m].
  - lia.
  - rewrite shr_iter_m by (cbn; lia). cbn [shr_m].
    assert (Zpos n <= d - 1) as Hn.
    { unfold fexp, emin, prec, emax in En. lia. }
    split; [|lia].
    apply Z.div_str_pos. split; [apply pow2_positive; lia|].
    apply Z.le_trans with (2 ^ (d - 1)); [|exact Hlow].
    apply Z.pow_le_mono_r; lia.
  - lia.
Qed.

Lemma round_nearest_even_positive (m : Z) (l : location) :
  0 < m -> 0 < round_nearest_even m l.
Proof.
  intros Hm. destruct l as [|[| |]]; cbn [round_nearest_even]; try lia.
  destruct (Z.even m); lia.
Qed.

Lemma binary_round_aux_positive (m : positive) (e : Z) :
  -1073 <= e ->
  is_positive (binary_round_aux prec emax false (Zpos m) e loc_Exact).
Proof.
  intros He. unfold binary_round_aux.
  destruct (shr_fexp_positive m e He) as [Hm1 He1].
  destruct (shr_fexp prec emax (Zpos m) e loc_Exact) as [mrs1 e1].
  cbn [fst snd] in Hm1, He1.
  pose proof (round_nearest_even_positive (shr_m mrs1)
                (loc_of_shr_record mrs1) Hm1) as Hr.
  destruct (round_nearest_even (shr_m mrs1) (loc_of_shr_record mrs1))
    as [|m1|m1]; try lia.
  destruct (shr_fexp_positive m1 e1 He1) as [Hm2 _].
  destruct (shr_fexp prec emax (Zpos m1) e1 loc_Exact) as [mrs2 e2].
  cbn [fst] in Hm2.
  destruct (shr_m mrs2) as [|m2|m2]; try lia.
  destruct (e2 <=? emax - prec); exact I.
Qed.

(** A positive integer converts to a positive binary64 (or to an infinity,
    beyond the range of the format): never to a zero or a NaN. *)
Lemma of_int_positive (z : Z) : 0 < z -> is_positive (of_int z).
Proof.
  destruct z as [|p|p]; try lia. intros _.
  unfold of_int, binary_normalize, binary_round, shl_align.
  set (d := Zpos (digits2_pos p)).
  assert (1 <= d) as Hd by (subst d; lia).
  assert (-52 <= fexp prec emax (d + 0)) as Hf.
  { unfold fexp, emin, prec, emax. lia. }
  destruct (fexp prec emax (d + 0) - 0) as [|n|n] eqn:En;
    apply binary_round_aux_positive; lia.
Qed.

Lemma div_zero_positive (x : spec_float) :
  is_positive x -> div (S754_zero false) x = S754_zero false.
Proof. destruct x as [s|[|]| |[|] m e]; cbn; intros []; reflexivity. Qed.

End Binary64Facts.

Module MetadataClaims.
Import Np Datetime Metadata DatetimeFacts MetadataFacts.
Import StoredPercentage Binary64Facts.

(** C4.  [combine_metadata] merges by key: a key of [new] that [old] has
    gets the sum of the two [clean_pixels] counts, a key of [new] that [old]
    lacks is inserted with the tally of [new], the other keys of [old] keep
    theirs; and the merge is commutative: [combine_metadata old new] and
    [combine_metadata new old] are the same mapping. *)
Theorem combine_metadata_adds_per_key (old new : tally_dict) :
  (forall key o n, old !! key = Some o -> new !! key = Some n ->
     combine_metadata old new !! key
     = Some (Tally (clean_pixels o + clean_pixels n))) /\
  (forall key n, old !! key = None -> new !! key = Some n ->
     combine_metadata old new !! key = Some n) /\
  (forall key, new !! key = None ->
     combine_metadata old new !! key = old !! key) /\
  combine_metadata old new = combine_metadata new old.
Proof.
  repeat split.
  - intros key o n Ho Hn. rewrite combine_metadata_lookup, Ho, Hn. reflexivity.
  - intros key n Ho Hn. rewrite combine_metadata_lookup, Ho, Hn. reflexivity.
  - intros key Hn. rewrite combine_metadata_lookup, Hn.
    destruct (old !! key); reflexivity.
  - apply map_eq. intros key. rewrite !combine_metadata_lookup.
    destruct (old !! key) as [o|], (new !! key) as [n|]; try reflexivity.
    rewrite Z.add_comm. reflexivity.
Qed.

(** Two dictionaries that share the acquisition of 5 March 2017. *)
Lemma combine_metadata_adds_per_key_witness :
  combine_metadata
    (<[Dt 2017 3 5 10 30 0 0 := Tally 40]>
       (<[Dt 2016 1 2 9 0 0 0 := Tally 7]> ∅))
    (<[Dt 2017 3 5 10 30 0 0 := Tally 2]>
       (<[Dt 2018 7 9 0 0 0 0 := Tally 11]> ∅))
  = combine_metadata
      (<[Dt 2017 3 5 10 30 0 0 := Tally 2]>
         (<[Dt 2018 7 9 0 0 0 0 := Tally 11]> ∅))
      (<[Dt 2017 3 5 10 30 0 0 := Tally 40]>
         (<[Dt 2016 1 2 9 0 0 0 := Tally 7]> ∅)).
Proof.
  exact (proj2 (proj2 (proj2 (combine_metadata_adds_per_key
    (<[Dt 2017 3 5 10 30 0 0 := Tally 40]>
       (<[Dt 2016 1 2 9 0 0 0 := Tally 7]> ∅))
    (<[Dt 2017 3 5 10 30 0 0 := Tally 2]>
       (<[Dt 2018 7 9 0 0 0 0 := Tally 11]> ∅)))))).
Defined.

(** C5.  The dates [metadata_from_dict] writes are the keys of the
    dictionary, each once, in strictly descending order; the three stored
    strings are the comma-joined columns over that one list of dates, so
    that position [i] of each column is about the [i]-th date: its
    [%m/%d/%Y] form, its [clean_pixels] count, and that count times 100
    divided by the [pixel_count] of the task.  A date in the calendar range
    is written as two digits, a slash, two digits, a slash and four digits,
    which read back as its month, day and year. *)
Theorem metadata_from_dict_columns (str_float : float64 -> string)
    (self : metadata) (md : tally_dict) :
  let dates := sorted_dates md in
  let result := metadata_from_dict str_float self md in
  NoDup dates /\
  (forall date, date ∈ dates <-> is_Some (md !! date)) /\
  StronglySorted (fun d e => lt e d) dates /\
  acquisition_list result = join "," (date_column dates) /\
  clean_pixels_per_acquisition result = join "," (clean_column md dates) /\
  clean_pixel_percentages_per_acquisition result
  = join "," (percentage_column str_float self md dates) /\
  (forall i date, dates !! i = Some date ->
     exists t,
       md !! date = Some t /\
       date_column dates !! i = Some (strftime_mdY date) /\
       clean_column md dates !! i = Some (str_int (clean_pixels t)) /\
       percentage_column str_float self md dates !! i
       = Some (str_float
                 (true_divide (clean_pixels t * 100) (pixel_count self)))) /\
  (forall date,
     1 <= month date <= 12 -> 1 <= day date <= 31 ->
     1 <= year date <= 9999 ->
     exists mm dd yyyy,
       strftime_mdY date = mm +:+ "/" +:+ dd +:+ "/" +:+ yyyy /\
       String.length mm = 2%nat /\ decimal_value 0 mm = month date /\
       String.length dd = 2%nat /\ decimal_value 0 dd = day date /\
       String.length yyyy = 4%nat /\ decimal_value 0 yyyy = year date).
Proof.
  intros dates result.
  split; [apply sorted_dates_nodup|].
  split; [apply sorted_dates_elem|].
  split; [apply sorted_dates_descending|].
  do 3 (split; [reflexivity|]).
  split.
  - intros i date Hi.
    assert (date ∈ dates) as Hin by (eapply list_elem_of_lookup_2, Hi).
    apply sorted_dates_elem in Hin as [t Ht].
    exists t. split; [exact Ht|].
    unfold date_column, clean_column, percentage_column, percentage_of,
      clean_of.
    rewrite !list_lookup_fmap, Hi. cbn. rewrite Ht. auto.
  - intros date Hm Hd Hy.
    exists (pad2 (month date)), (pad2 (day date)), (pad4 (year date)).
    split; [reflexivity|].
    rewrite !decimal_pad2, decimal_pad4 by lia.
    repeat split; reflexivity.
Qed.

Lemma metadata_from_dict_columns_witness :
  let md : tally_dict :=
    <[Dt 2017 3 5 10 30 0 0 := Tally 40]>
      (<[Dt 2018 7 9 0 0 0 0 := Tally 11]> ∅) in
  let self := MetadataFields 50 0 NaN 0 0 "" "" "" in
  sorted_dates md = [Dt 2018 7 9 0 0 0 0; Dt 2017 3 5 10 30 0 0] /\
  acquisition_list (metadata_from_dict (fun _ => "") self md)
  = "07/09/2018,03/05/2017" /\
  clean_pixels_per_acquisition (metadata_from_dict (fun _ => "") self md)
  = "11,40" /\
  exists t,
    md !! Dt 2017 3 5 10 30 0 0 = Some t /\
    percentage_column (fun _ => "") self md (sorted_dates md) !! 1%nat
    = Some ((fun _ => "")
              (true_divide (clean_pixels t * 100) (pixel_count self))).
Proof.
  intros md self.
  split; [vm_compute; reflexivity|].
  split; [vm_compute; reflexivity|].
  split; [vm_compute; reflexivity|].
  destruct (proj1 (proj2 (proj2 (proj2 (proj2 (proj2 (proj2
    (metadata_from_dict_columns (fun _ => "") self md)))))))
    1%nat (Dt 2017 3 5 10 30 0 0)) as (t & Ht & _ & _ & Hp).
  { vm_compute. reflexivity. }
  exists t. split; [exact Ht|exact Hp].
Defined.

(** C10.  After [metadata_from_dict], [total_scenes] and [scenes_processed]
    are both the number of keys of the dictionary, hence equal. *)
Theorem metadata_from_dict_scene_counts (str_float : float64 -> string)
    (self : metadata) (md : tally_dict) :
  total_scenes (metadata_from_dict str_float self md) = Z.of_nat (size md) /\
  scenes_processed (metadata_from_dict str_float self md)
  = Z.of_nat (size md) /\
  size md = size (dom md) /\
  total_scenes (metadata_from_dict str_float self md)
  = scenes_processed (metadata_from_dict str_float self md).
Proof.
  cbn [metadata_from_dict total_scenes scenes_processed].
  rewrite sorted_dates_length, size_dom. auto.
Qed.

(** C6, as the code has it.  On a composite with at least one data
    variable, [final_metadata_from_dataset] stores as [pixel_count] the
    product of the latitude and longitude extents, as [clean_pixel_count]
    the number of values of the first variable other than -9999, and as
    [percentage_clean_pixels] the float64 product by 100 of their float64
    quotient; when every value is -9999 and the raster has at least one
    pixel, the count is 0 and the percentage is 0. *)
Theorem final_metadata_counts (self : metadata) (lat lon : list Q)
    (name : string) (values : list Z) (rest : list (string * list Z)) :
  exists result,
    final_metadata_from_dataset self
      (Composite lat lon ((name, values) :: rest)) = Some result /\
    pixel_count result = Z.of_nat (length lat) * Z.of_nat (length lon) /\
    clean_pixel_count result
    = Z.of_nat (length (filter (fun v => v ≠ -9999) values)) /\
    stored_percentage self (Composite lat lon ((name, values) :: rest))
    = Some (Binary64.mul
              (Binary64.div (Binary64.of_int (clean_pixel_count result))
                            (Binary64.of_int (pixel_count result)))
              (Binary64.of_int 100)) /\
    (Forall (fun v => v = -9999) values -> 0 < pixel_count result ->
       clean_pixel_count result = 0 /\
       stored_percentage self (Composite lat lon ((name, values) :: rest))
       = Some (SpecFloat.S754_zero false) /\
       percentage_clean_pixels result = Finite 0).
Proof.
  unfold stored_percentage, percentage_binary64.
  eexists. split; [reflexivity|].
  cbn [final_metadata_from_dataset data_vars option_map
       pixel_count clean_pixel_count percentage_clean_pixels
       latitude longitude].
  set (pc := Z.of_nat (length lat) * Z.of_nat (length lon)).
  do 3 (split; [reflexivity|]).
  intros Hall Hpc. rewrite (count_valid_all_no_data values Hall).
  split; [reflexivity|]. split.
  - f_equal. change (Binary64.of_int 0) with (SpecFloat.S754_zero false).
    rewrite (div_zero_positive _ (of_int_positive pc Hpc)). reflexivity.
  - unfold true_divide.
    destruct (Z.eqb_spec pc 0) as [?|_]; [lia|].
    cbn [mul_int]. reflexivity.
Qed.

(** A three by two raster of which every value is the sentinel. *)
Lemma final_metadata_counts_witness :
  exists result,
    final_metadata_from_dataset (MetadataFields 0 0 NaN 0 0 "" "" "")
      (Composite [0; 1; 2]%Q [0; 1]%Q
         [("red", [-9999; -9999; -9999; -9999; -9999; -9999]);
          ("green", [1; 2; 3; 4; 5; 6])]) = Some result /\
    pixel_count result = 6 /\
    clean_pixel_count result = 0 /\
    stored_percentage (MetadataFields 0 0 NaN 0 0 "" "" "")
      (Composite [0; 1; 2]%Q [0; 1]%Q
         [("red", [-9999; -9999; -9999; -9999; -9999; -9999]);
          ("green", [1; 2; 3; 4; 5; 6])])
    = Some (SpecFloat.S754_zero false) /\
    percentage_clean_pixels result = Finite 0.
Proof.
  destruct (final_metadata_counts (MetadataFields 0 0 NaN 0 0 "" "" "")
              [0; 1; 2]%Q [0; 1]%Q "red"
              [-9999; -9999; -9999; -9999; -9999; -9999]
              [("green", [1; 2; 3; 4; 5; 6])])
    as (result & Hr & Hpc & _ & _ & Hall).
  exists result. split; [exact Hr|]. split; [exact Hpc|].
  apply Hall; [repeat constructor|rewrite Hpc; reflexivity].
Defined.

(** C6 as the specification words it fails on the raster without pixels,
    which consists of nothing but the sentinel: its count is 0 and its
    percentage is the quotient 0/0, NaN, not 0. *)
Lemma all_sentinel_without_pixels_is_nan :
  Forall (fun v => v = -9999) ([] : list Z) /\
  option_map
    (fun result => (pixel_count result, clean_pixel_count result,
                    percentage_clean_pixels result))
    (final_metadata_from_dataset (MetadataFields 0 0 NaN 0 0 "" "" "")
       (Composite [] [] [("red", [])]))
  = Some (0, 0, NaN) /\
  stored_percentage (MetadataFields 0 0 NaN 0 0 "" "" "")
    (Composite [] [] [("red", [])])
  = Some SpecFloat.S754_nan.
Proof. split; [constructor|split; reflexivity]. Qed.

(** Seven valid values in a hundred: the quotient and the product are each
    rounded, and the percentage stored is 7.000000000000001. *)
Example stored_percentage_rounds_twice :
  percentage_binary64 7 100
  = SpecFloat.S754_finite false 7881299347898369 (-50).
Proof. vm_compute. reflexivity. Qed.

(** On a raster without pixels the quotient of C6 is NaN. *)
Example final_metadata_empty_raster :
  option_map percentage_clean_pixels
    (final_metadata_from_dataset (MetadataFields 0 0 NaN 0 0 "" "" "")
       (Composite [] [] [("red", [])]))
  = Some NaN.
Proof. reflexivity. Qed.

End MetadataClaims.

(** ** The spectral-anomaly query *)

Module SpectralAnomalyClaims.
Import SpectralAnomaly.

Lemma processing_methods_other (id : string) :
  id <> "most_recent" -> id <> "least_recent" -> id <> "max_ndvi" ->
  id <> "min_ndvi" -> id <> "median_pixel" ->
  processing_methods !! id = None.
Proof.
  intros. unfold processing_methods.
  rewrite !lookup_insert_ne by congruence. apply lookup_empty.
Qed.

(** C8.  [get_processing_method] is a total function of the compositor
    identifier: each of the five known identifiers gives its mosaic function,
    and every other string gives [create_mosaic], the function of
    [most_recent]. *)
Theorem get_processing_method_total (self : query) :
  (compositor_id self = "most_recent" ->
     get_processing_method self = create_mosaic) /\
  (compositor_id self = "least_recent" ->
     get_processing_method self = create_mosaic) /\
  (compositor_id self = "max_ndvi" ->
     get_processing_method self = create_max_ndvi_mosaic) /\
  (compositor_id self = "min_ndvi" ->
     get_processing_method self = create_min_ndvi_mosaic) /\
  (compositor_id self = "median_pixel" ->
     get_processing_method self = create_median_mosaic) /\
  (compositor_id self ∉
     ["most_recent"; "least_recent"; "max_ndvi"; "min_ndvi"; "median_pixel"] ->
     get_processing_method self = create_mosaic /\
     get_processing_method self
     = get_processing_method (Query "most_recent")).
Proof.
  destruct self as [id]. unfold get_processing_method. cbn [compositor_id].
  repeat split; try (intros ->; vm_compute; reflexivity).
  - rewrite processing_methods_other; [reflexivity|..];
      intros ->; apply H; set_solver.
  - rewrite processing_methods_other; [vm_compute; reflexivity|..];
      intros ->; apply H; set_solver.
Qed.

Lemma get_processing_method_total_witness :
  get_processing_method (Query "median_pixel") = create_median_mosaic /\
  get_processing_method (Query "nearest_cloud_free") = create_mosaic.
Proof.
  split.
  - apply (proj1 (proj2 (proj2 (proj2 (proj2
      (get_processing_method_total (Query "median_pixel"))))))).
    reflexivity.
  - apply (proj2 (proj2 (proj2 (proj2 (proj2
      (get_processing_method_total (Query "nearest_cloud_free"))))))).
    cbn [compositor_id]. intros H.
    repeat (apply elem_of_cons in H as [H|H]; [discriminate H|]).
    apply elem_of_nil in H. exact H.
Defined.

(** C9.  [get_reverse_time] answers [True] exactly for the compositor
    [most_recent]; a query iterated in reverse is then also iterative, and
    its mosaic function is [create_mosaic]. *)
Theorem get_reverse_time_iff_most_recent (self : query) :
  (get_reverse_time self = true <-> compositor_id self = "most_recent") /\
  (get_reverse_time self = true -> get_iterative self = true) /\
  (get_reverse_time self = true ->
     get_processing_method self = create_mosaic).
Proof.
  unfold get_reverse_time, get_iterative, get_processing_method.
  split; [apply bool_decide_eq_true|].
  split; intros H%bool_decide_eq_true; rewrite H.
  - apply bool_decide_eq_true. discriminate.
  - vm_compute. reflexivity.
Qed.

Lemma get_reverse_time_iff_most_recent_witness :
  get_iterative (Query "most_recent") = true /\
  get_reverse_time (Query "least_recent") = false.
Proof.
  split.
  - apply (proj1 (proj2
      (get_reverse_time_iff_most_recent (Query "most_recent")))).
    reflexivity.
  - destruct (get_reverse_time (Query "least_recent")) eqn:E;
      [|reflexivity].
    apply (proj1 (get_reverse_time_iff_most_recent (Query "least_recent")))
      in E.
    discriminate E.
Defined.

End SpectralAnomalyClaims.

(** ** More on the accumulator *)

Module AccumulatorExtras.
Import Np CloudCoverage ChunkSums AccumulatorFacts.

Lemma acquisitions_seen_nonneg (cs : list chunk) : 0 <= acquisitions_seen cs.
Proof.
  unfold acquisitions_seen. induction cs as [|c cs IH]; cbn [foldr]; lia.
Qed.

Lemma clear_seen_nonneg (cs : list chunk) (i j : nat) : 0 <= clear_seen cs i j.
Proof.
  unfold clear_seen. induction cs as [|c cs IH]; cbn [foldr]; lia.
Qed.

Lemma acquisitions_seen_cons (c : chunk) (cs : list chunk) :
  acquisitions_seen (c :: cs)
  = Z.of_nat (length (time (fst c))) + acquisitions_seen cs.
Proof. reflexivity. Qed.

Lemma clear_seen_cons (c : chunk) (cs : list chunk) (i j : nat) :
  clear_seen (c :: cs) i j
  = Z.of_nat (clear_count (snd c) i j) + clear_seen cs i j.
Proof. reflexivity. Qed.

Lemma acquisitions_seen_perm (cs1 cs2 : list chunk) :
  cs1 ≡ₚ cs2 -> acquisitions_seen cs1 = acquisitions_seen cs2.
Proof. unfold acquisitions_seen. induction 1; cbn [foldr]; lia. Qed.

Lemma clear_seen_perm (cs1 cs2 : list chunk) (i j : nat) :
  cs1 ≡ₚ cs2 -> clear_seen cs1 i j = clear_seen cs2 i j.
Proof. unfold clear_seen. induction 1; cbn [foldr]; lia. Qed.

(** The fold from a product on the grid of the chunks. *)
Lemma fold_chunks_from (r c : nat) (cs : list chunk) (p : product) :
  Forall (on_grid r c) cs -> dims p = (r, c) ->
  exists s,
    fold_chunks cs (Some p) = Some (Some s) /\
    dims s = (r, c) /\
    (consistent p -> consistent s) /\
    (cs <> [] -> consistent s) /\
    forall i j, inside (r, c) i j ->
      total_pixels s i j = total_pixels p i j + acquisitions_seen cs /\
      total_clear s i j = total_clear p i j + clear_seen cs i j.
Proof.
  intros Hcs. revert p.
  induction Hcs as [|[d m] cs (Hs & Hr & Hc) _ IH]; intros p Hp.
  - exists p. cbn. repeat split; auto; try lia. congruence.
  - cbn [fst snd] in *.
    destruct (clear_percentage_defined d m p) as [s1 E1].
    { cbn. congruence. }
    pose proof (clear_percentage_step d m p s1 E1) as [Hd1 Hs1].
    destruct (IH s1) as (s & Es & Hds & Hcons & _ & Hs'); [congruence|].
    assert (consistent s1) as Hc1 by (intros i j; apply Hs1).
    exists s. cbn [fold_chunks]. rewrite E1.
    repeat split; auto.
    + destruct (Hs' i j H) as [-> _]. destruct (Hs1 i j) as (-> & _).
      rewrite acquisitions_seen_cons. cbn [fst]. lia.
    + destruct (Hs' i j H) as [_ ->]. destruct (Hs1 i j) as (_ & -> & _).
      destruct H as [Hi Hj]. cbn [fst snd] in Hi, Hj.
      rewrite !bidx_same, sum_axis0_counts by congruence.
      rewrite clear_seen_cons. cbn [snd]. lia.
Qed.

(** The fold of a non-empty sequence on one grid, in closed form. *)
Lemma fold_chunks_closed_form (r c : nat) (cs : list chunk) :
  Forall (on_grid r c) cs -> cs <> [] ->
  exists s,
    fold_chunks cs None = Some (Some s) /\
    dims s = (r, c) /\
    consistent s /\
    forall i j, inside (r, c) i j ->
      total_pixels s i j = acquisitions_seen cs /\
      total_clear s i j = clear_seen cs i j.
Proof.
  intros Hcs Hne. destruct cs as [|[d m] cs]; [contradiction|].
  apply Forall_cons in Hcs as [(Hs & Hr & Hc) Hcs]. cbn [fst snd] in *.
  destruct Hs as (Ht & Hlat & Hlon).
  cbn [fold_chunks].
  rewrite clear_percentage_init by (split; assumption).
  match goal with |- context [fold_chunks cs (Some ?p)] => set (p0 := p) end.
  destruct (fold_chunks_from r c cs p0 Hcs) as (s & Es & Hds & Hcons & _ & Hs').
  { cbn. congruence. }
  exists s. repeat split; auto.
  - apply Hcons. intros i j. reflexivity.
  - destruct (Hs' i j H) as [-> _]. reflexivity.
  - destruct (Hs' i j H) as [_ ->]. rewrite clear_seen_cons.
    subst p0. cbn [total_clear snd]. rewrite sum_axis0_counts. reflexivity.
Qed.

Lemma fold_chunks_consistent (cs : list chunk) (st : option product)
    (s : product) :
  (forall p, st = Some p -> consistent p) ->
  fold_chunks cs st = Some (Some s) -> consistent s.
Proof.
  revert st. induction cs as [|[d m] cs IH]; intros st Hst.
  - cbn. intros [= ->]. apply Hst. reflexivity.
  - cbn [fold_chunks].
    destruct (clear_percentage d m st) as [s1|] eqn:E; [|discriminate].
    apply IH. intros p [= <-]. destruct st as [p0|].
    + intros i j. apply (clear_percentage_step d m p0 s1 E).
    + unfold clear_percentage in E.
      destruct (shape_eqb _ _); [|discriminate].
      injection E as <-. intros i j. reflexivity.
Qed.

Lemma true_divide_unit (a b : Z) :
  0 <= a <= b -> 0 < b -> finite_between 0 1 (true_divide a b).
Proof.
  intros Hab Hb. unfold true_divide.
  destruct (Z.eqb_spec b 0) as [?|_]; [lia|].
  cbn [finite_between]. rewrite Qred_correct.
  assert (0 < inject_Z b)%Q as Hb'.
  { change 0%Q with (inject_Z 0). rewrite <- Zlt_Qlt. exact Hb. }
  split.
  - apply Qle_shift_div_l; [exact Hb'|].
    rewrite Qmult_0_l. change 0%Q with (inject_Z 0).
    rewrite <- Zle_Qle. lia.
  - apply Qle_shift_div_r; [exact Hb'|].
    rewrite Qmult_1_l. rewrite <- Zle_Qle. lia.
Qed.

Lemma stretches_spec (m n : nat) :
  stretches m n = true <-> m = n \/ m = 1%nat.
Proof.
  unfold stretches. rewrite orb_true_iff, !Nat.eqb_eq. reflexivity.
Qed.

(** X1.  A non-empty sequence of chunks on one grid, folded from no
    product, ends in a product on that grid whose [total_pixels] is the
    number of acquisitions of all the chunks, whose [total_clear] is the
    number of clear observations of the location in all the chunks, and
    whose percentage is the quotient of these two sums. *)
Theorem fold_chunks_sums (r c : nat) (cs : list chunk)
    (Hgrid : Forall (on_grid r c) cs) (Hne : cs <> []) :
  exists s,
    fold_chunks cs None = Some (Some s) /\
    dims s = (r, c) /\
    forall i j, inside (r, c) i j ->
      total_pixels s i j = acquisitions_seen cs /\
      total_clear s i j = clear_seen cs i j /\
      clear_percentage_var s i j
      = true_divide (clear_seen cs i j) (acquisitions_seen cs).
Proof.
  destruct (fold_chunks_closed_form r c cs Hgrid Hne)
    as (s & Es & Hd & Hcons & Hs).
  exists s. repeat split; auto; try apply Hs; auto.
  rewrite Hcons. destruct (Hs i j H) as [-> ->]. reflexivity.
Qed.

Lemma fold_chunks_sums_witness :
  exists s,
    fold_chunks [chunk_of 1 1 [[[true]]; [[true]]; [[true]]];
                 chunk_of 1 1 [[[true]]; [[false]]]] None = Some (Some s) /\
    dims s = (1%nat, 1%nat) /\
    forall i j, inside (1%nat, 1%nat) i j ->
      total_pixels s i j = 5 /\
      total_clear s i j
      = clear_seen [chunk_of 1 1 [[[true]]; [[true]]; [[true]]];
                    chunk_of 1 1 [[[true]]; [[false]]]] i j /\
      clear_percentage_var s i j
      = true_divide
          (clear_seen [chunk_of 1 1 [[[true]]; [[true]]; [[true]]];
                       chunk_of 1 1 [[[true]]; [[false]]]] i j) 5.
Proof.
  apply (fold_chunks_sums 1 1
           [chunk_of 1 1 [[[true]]; [[true]]; [[true]]];
            chunk_of 1 1 [[[true]]; [[false]]]]).
  - repeat (constructor || split).
  - discriminate.
Defined.

(** X2.  The order of the chunks does not matter: two arrangements of the
    same chunks on one grid end in products with the same grid and, at
    every location, the same two totals and the same percentage. *)
Theorem fold_chunks_order_independent (r c : nat) (cs1 cs2 : list chunk)
    (Hperm : cs1 ≡ₚ cs2) (Hgrid : Forall (on_grid r c) cs1)
    (Hne : cs1 <> []) :
  exists s1 s2,
    fold_chunks cs1 None = Some (Some s1) /\
    fold_chunks cs2 None = Some (Some s2) /\
    dims s1 = dims s2 /\
    forall i j, inside (r, c) i j ->
      total_pixels s1 i j = total_pixels s2 i j /\
      total_clear s1 i j = total_clear s2 i j /\
      clear_percentage_var s1 i j = clear_percentage_var s2 i j.
Proof.
  assert (Hgrid2 : Forall (on_grid r c) cs2) by (rewrite <- Hperm; exact Hgrid).
  assert (Hne2 : cs2 <> []).
  { intros ->. apply Permutation_nil_r in Hperm. contradiction. }
  destruct (fold_chunks_closed_form r c cs1 Hgrid Hne)
    as (s1 & E1 & Hd1 & Hc1 & Hs1).
  destruct (fold_chunks_closed_form r c cs2 Hgrid2 Hne2)
    as (s2 & E2 & Hd2 & Hc2 & Hs2).
  exists s1, s2. repeat split; auto; try congruence.
  - destruct (Hs1 i j H) as [-> _], (Hs2 i j H) as [-> _].
    apply acquisitions_seen_perm, Hperm.
  - destruct (Hs1 i j H) as [_ ->], (Hs2 i j H) as [_ ->].
    apply clear_seen_perm, Hperm.
  - rewrite Hc1, Hc2.
    destruct (Hs1 i j H) as [-> ->], (Hs2 i j H) as [-> ->].
    rewrite (acquisitions_seen_perm cs1 cs2 Hperm),
      (clear_seen_perm cs1 cs2 i j Hperm). reflexivity.
Qed.

Lemma fold_chunks_order_independent_witness :
  exists s1 s2,
    fold_chunks [chunk_of 1 1 [[[true]]; [[true]]; [[true]]];
                 chunk_of 1 1 [[[true]]; [[false]]]] None = Some (Some s1) /\
    fold_chunks [chunk_of 1 1 [[[true]]; [[false]]];
                 chunk_of 1 1 [[[true]]; [[true]]; [[true]]]] None
    = Some (Some s2) /\
    dims s1 = dims s2 /\
    forall i j, inside (1%nat, 1%nat) i j ->
      total_pixels s1 i j = total_pixels s2 i j /\
      total_clear s1 i j = total_clear s2 i j /\
      clear_percentage_var s1 i j = clear_percentage_var s2 i j.
Proof.
  apply (fold_chunks_order_independent 1 1).
  - apply Permutation_swap.
  - repeat (constructor || split).
  - discriminate.
Defined.

(** X3.  Along a sequence of chunks whose masks have as many slices as the
    data have times, the percentage at a location that has been observed
    ([total_pixels] positive) is a finite number between 0 and 1. *)
Theorem percentage_within_unit (cs : list chunk) (s : product) (i j : nat)
    (Hcs : Forall time_agrees cs)
    (Hs : fold_chunks cs None = Some (Some s))
    (Hseen : 0 < total_pixels s i j) :
  finite_between 0 1 (clear_percentage_var s i j).
Proof.
  assert (consistent s) as Hc.
  { apply (fold_chunks_consistent cs None s); [discriminate|exact Hs]. }
  assert (bounded s) as Hb.
  { apply (fold_chunks_bounded cs None (Some s));
      [exact Hcs|discriminate|exact Hs|reflexivity]. }
  rewrite Hc. apply true_divide_unit; [apply Hb|exact Hseen].
Qed.

Lemma percentage_within_unit_witness :
  exists s,
    fold_chunks [chunk_of 1 1 [[[true]]; [[true]]; [[true]]];
                 chunk_of 1 1 [[[true]]; [[false]]]] None = Some (Some s) /\
    finite_between 0 1 (clear_percentage_var s 0 0).
Proof.
  eexists. split; [reflexivity|].
  apply (percentage_within_unit
           [chunk_of 1 1 [[[true]]; [[true]]; [[true]]];
            chunk_of 1 1 [[[true]]; [[false]]]]).
  - repeat constructor.
  - reflexivity.
  - reflexivity.
Defined.

(** X4.  The first update fails exactly when the mask does not have the
    extents of the latitude and longitude coordinates; a later update fails
    exactly when the mask cannot be broadcast onto the grid of the product.
    So a later update accepts a mask of one row and one column on any grid,
    and adds its one count of clear slices to every location. *)
Theorem update_errors (d : dataset) (m : mask3) :
  (clear_percentage d m None = None <->
     ~ (mrows m = length (latitude d) /\ mcols m = length (longitude d))) /\
  (forall p,
     clear_percentage d m (Some p) = None <-> ~ broadcastable m (dims p)) /\
  (forall p, mrows m = 1%nat -> mcols m = 1%nat ->
     exists s,
       clear_percentage d m (Some p) = Some s /\
       forall i j,
         total_clear s i j = total_clear p i j + Z.of_nat (clear_count m 0 0)).
Proof.
  split; [|split].
  - unfold clear_percentage, shape_eqb, shape. cbn [sum_axis0 rows cols fst snd].
    destruct (Nat.eqb_spec (mrows m) (length (latitude d))),
      (Nat.eqb_spec (mcols m) (length (longitude d))); cbn;
      split; try discriminate; try tauto.
  - intros p. unfold clear_percentage, iadd, var, broadcastable.
    cbn [sum_axis0 rows cols].
    rewrite <- !stretches_spec.
    destruct (stretches (mrows m) (dims p).1),
      (stretches (mcols m) (dims p).2); cbn [andb];
      (split;
       [ first [discriminate | intros _ [? ?]; discriminate]
       | first [reflexivity | intros H; exfalso; apply H; auto] ]).
  - intros p Hr Hc.
    destruct (clear_percentage d m (Some p)) as [s|] eqn:E.
    + exists s. split; [reflexivity|]. intros i j.
      destruct (clear_percentage_step d m p s E) as [_ Hs].
      destruct (Hs i j) as (_ & -> & _).
      unfold bidx. rewrite Hr, Hc. cbn [Nat.eqb].
      rewrite sum_axis0_counts. reflexivity.
    + exfalso. revert E. unfold clear_percentage, iadd, var.
      cbn [sum_axis0 rows cols]. unfold stretches. rewrite Hr, Hc.
      cbn [Nat.eqb]. rewrite !orb_true_r. discriminate.
Qed.

Lemma update_errors_witness :
  exists s,
    clear_percentage (fst (chunk_of 1 1 [[[true]]; [[false]]]))
      (snd (chunk_of 1 1 [[[true]]; [[false]]]))
      (Some (Product (3%nat, 2%nat) (fun _ _ => 5) (fun _ _ => 4)
               (fun _ _ => Finite (4 # 5)))) = Some s /\
    forall i j, total_clear s i j = 4 + 1.
Proof.
  apply (proj2 (proj2 (update_errors
           (fst (chunk_of 1 1 [[[true]]; [[false]]]))
           (snd (chunk_of 1 1 [[[true]]; [[false]]]))))); reflexivity.
Defined.

(** X5.  Updates never change the grid of a product and never decrease
    either total, whatever the chunks are. *)
Theorem totals_never_decrease (cs : list chunk) (p s : product)
    (Hs : fold_chunks cs (Some p) = Some (Some s)) :
  dims s = dims p /\
  forall i j,
    total_pixels p i j <= total_pixels s i j /\
    total_clear p i j <= total_clear s i j.
Proof.
  revert p Hs. induction cs as [|[d m] cs IH]; intros p.
  - cbn. intros [= ->]. split; [reflexivity|]. intros; lia.
  - cbn [fold_chunks].
    destruct (clear_percentage d m (Some p)) as [s1|] eqn:E; [|discriminate].
    intros Hs. destruct (IH s1 Hs) as [Hd Hle].
    pose proof (clear_percentage_step d m p s1 E) as [Hd1 Hs1].
    split; [congruence|]. intros i j.
    destruct (Hle i j) as [H1 H2]. destruct (Hs1 i j) as (E1 & E2 & _).
    pose proof (sum_axis0_bounds m (bidx (mrows m) i) (bidx (mcols m) j)).
    lia.
Qed.

Lemma totals_never_decrease_witness :
  exists s,
    fold_chunks [chunk_of 1 1 [[[true]]; [[false]]]]
      (Some (Product (1%nat, 1%nat) (fun _ _ => 5) (fun _ _ => 4)
               (fun _ _ => Finite (4 # 5)))) = Some (Some s) /\
    dims s = (1%nat, 1%nat) /\
    forall i j, 5 <= total_pixels s i j /\ 4 <= total_clear s i j.
Proof.
  eexists. split; [reflexivity|].
  apply (totals_never_decrease [chunk_of 1 1 [[[true]]; [[false]]]]
           (Product (1%nat, 1%nat) (fun _ _ => 5) (fun _ _ => 4)
              (fun _ _ => Finite (4 # 5)))).
  reflexivity.
Defined.

End AccumulatorExtras.

(** ** More on the metadata dictionary *)

Module MetadataDatasetFacts.
Import Np Datetime Metadata MetadataDataset MetadataFacts.

Lemma total_clean_empty : total_clean ∅ = 0.
Proof. reflexivity. Qed.

Lemma total_clean_insert_new (md : tally_dict) (key : datetime) (t : tally) :
  md !! key = None ->
  total_clean (<[key := t]> md) = clean_pixels t + total_clean md.
Proof.
  intros Hk. unfold total_clean.
  rewrite map_fold_insert_L; [reflexivity| |exact Hk].
  intros. lia.
Qed.

Lemma total_clean_insert_old (md : tally_dict) (key : datetime) (t t' : tally) :
  md !! key = Some t ->
  total_clean (<[key := t']> md)
  = total_clean md - clean_pixels t + clean_pixels t'.
Proof.
  intros Hk.
  rewrite <- (insert_delete_eq md key t') at 1.
  rewrite <- (insert_delete_id md key t Hk) at 2.
  rewrite !total_clean_insert_new by apply lookup_delete_eq. lia.
Qed.

Lemma tally_step_lookup (c : Z) (time key : datetime) (md : tally_dict) :
  tally_step c time md !! key
  = if decide (time = key)
    then Some (Tally (clean_of md key + c))
    else md !! key.
Proof.
  unfold tally_step, clean_of. destruct (decide (time = key)) as [->|Hne].
  - destruct (md !! key); rewrite lookup_insert_eq; reflexivity.
  - destruct (md !! time); rewrite !lookup_insert_ne by congruence; reflexivity.
Qed.

Lemma tally_step_total (c : Z) (time : datetime) (md : tally_dict) :
  total_clean (tally_step c time md) = total_clean md + c.
Proof.
  unfold tally_step. destruct (md !! time) as [t|] eqn:E.
  - rewrite (total_clean_insert_old md time t) by exact E.
    cbn [clean_pixels]. lia.
  - rewrite insert_insert_eq, total_clean_insert_new by exact E.
    cbn [clean_pixels]. lia.
Qed.

Lemma metadata_loop_unfold (m : mask3) (idx : nat) (time : datetime)
    (rest : list datetime) (md : tally_dict) :
  metadata_loop m idx (time :: rest) md
  = if (idx <? depth m)%nat
    then metadata_loop m (S idx) rest
           (tally_step (slice_clear m idx) time md)
    else None.
Proof. reflexivity. Qed.

Lemma clear_for_absent (m : mask3) (times : list datetime) (key : datetime) :
  forall idx, key ∉ times -> clear_for m idx times key = 0.
Proof.
  induction times as [|time rest IH]; intros idx Hk; [reflexivity|].
  apply not_elem_of_cons in Hk as [Hne Hk]. cbn [clear_for].
  rewrite decide_False by congruence. rewrite IH by exact Hk. reflexivity.
Qed.

Lemma metadata_loop_lookup (m : mask3) (times : list datetime) :
  forall (idx : nat) (md r : tally_dict),
    metadata_loop m idx times md = Some r ->
    forall key,
      r !! key
      = if decide (key ∈ times)
        then Some (Tally (clean_of md key + clear_for m idx times key))
        else md !! key.
Proof.
  induction times as [|time rest IH]; intros idx md r.
  - cbn. intros [= <-] key. rewrite decide_False by apply not_elem_of_nil.
    reflexivity.
  - rewrite metadata_loop_unfold.
    destruct (idx <? depth m)%nat; [|discriminate].
    intros Hr key. rewrite (IH _ _ _ Hr key).
    cbn [clear_for]. unfold clean_of at 1.
    rewrite !tally_step_lookup.
    destruct (decide (time = key)) as [->|Hne].
    + rewrite (decide_True (P := key ∈ key :: rest)) by apply list_elem_of_here.
      destruct (decide (key ∈ rest)) as [Hin|Hnin]; do 2 f_equal;
        cbn [clean_pixels]; [lia|].
      rewrite (clear_for_absent m rest key) by exact Hnin. lia.
    + destruct (decide (key ∈ rest)) as [Hin|Hnin].
      * rewrite decide_True by (apply list_elem_of_further, Hin).
        do 2 f_equal.
      * rewrite decide_False; [reflexivity|].
        intros [?|?]%elem_of_cons; congruence.
Qed.

Lemma metadata_loop_total (m : mask3) (times : list datetime) :
  forall (idx : nat) (md r : tally_dict),
    metadata_loop m idx times md = Some r ->
    total_clean r = total_clean md + slices_clear m idx (length times).
Proof.
  induction times as [|time rest IH]; intros idx md r.
  - cbn. intros [= <-]. lia.
  - rewrite metadata_loop_unfold.
    destruct (idx <? depth m)%nat; [|discriminate].
    intros Hr. rewrite (IH _ _ _ Hr), tally_step_total.
    cbn [length slices_clear]. lia.
Qed.

Lemma metadata_loop_defined (m : mask3) (times : list datetime) :
  forall (idx : nat) (md : tally_dict),
    is_Some (metadata_loop m idx times md)
    <-> times = [] \/ (idx + length times <= depth m)%nat.
Proof.
  induction times as [|time rest IH]; intros idx md.
  - cbn. split; eauto.
  - rewrite metadata_loop_unfold. cbn [length].
    destruct (Nat.ltb_spec idx (depth m)) as [Hlt|Hge].
    + rewrite IH. split.
      * intros [->|Hle]; right; cbn; lia.
      * intros [?|Hle]; [discriminate|].
        destruct rest; [left; reflexivity|right; cbn in *; lia].
    + split; [intros [? ?]; discriminate|].
      intros [?|Hle]; [discriminate|lia].
Qed.

(** Sums over index ranges. *)
Lemma sum_upto_ext (n : nat) (f g : nat -> Z) :
  (forall k, (k < n)%nat -> f k = g k) -> sum_upto n f = sum_upto n g.
Proof.
  induction n as [|n IH]; intros H; cbn [sum_upto]; [reflexivity|].
  rewrite IH, H by (intros; try apply H; lia). reflexivity.
Qed.

Lemma sum_upto_plus (n : nat) (f g : nat -> Z) :
  sum_upto n (fun k => f k + g k) = sum_upto n f + sum_upto n g.
Proof. induction n as [|n IH]; cbn [sum_upto]; lia. Qed.

Lemma sum_upto_zero (n : nat) : sum_upto n (fun _ => 0) = 0.
Proof. induction n as [|n IH]; cbn [sum_upto]; lia. Qed.

Lemma sum_upto_swap (a b : nat) (f : nat -> nat -> Z) :
  sum_upto a (fun i => sum_upto b (fun j => f i j))
  = sum_upto b (fun j => sum_upto a (fun i => f i j)).
Proof.
  induction a as [|a IH]; cbn [sum_upto].
  - symmetry. apply sum_upto_zero.
  - rewrite IH, <- sum_upto_plus. reflexivity.
Qed.

Lemma sum_upto_shift (n : nat) (f : nat -> Z) :
  sum_upto (S n) f = f O + sum_upto n (fun k => f (S k)).
Proof.
  induction n as [|n IH]; [cbn; lia|].
  change (sum_upto (S (S n)) f) with (sum_upto (S n) f + f (S n)).
  rewrite IH. cbn [sum_upto]. lia.
Qed.

Lemma slices_clear_sum (m : mask3) (n start : nat) :
  slices_clear m start n
  = sum_upto n (fun k => slice_clear m (start + k)).
Proof.
  revert start. induction n as [|n IH]; intros start; [reflexivity|].
  rewrite sum_upto_shift. cbn [slices_clear]. rewrite IH.
  rewrite Nat.add_0_r. f_equal. apply sum_upto_ext. intros k _.
  f_equal. lia.
Qed.

(** Counting the clear cells slice by slice or location by location. *)
Lemma slices_clear_by_location (m : mask3) :
  slices_clear m 0 (depth m)
  = sum_upto (mrows m) (fun i =>
      sum_upto (mcols m) (fun j => cell (sum_axis0 m) i j)).
Proof.
  rewrite slices_clear_sum. unfold slice_clear, sum_axis0. cbn [cell plus].
  rewrite sum_upto_swap. apply sum_upto_ext. intros i _.
  apply sum_upto_swap.
Qed.

End MetadataDatasetFacts.

Module MetadataExtras.
Import Np Datetime Metadata MetadataDataset MetadataFacts MetadataDatasetFacts.

(** X6.  [metadata_from_dataset] fails exactly when the mask has fewer
    slices than the dataset has times.  Otherwise every time of the dataset
    is a key of the result, holding its former count (0 for a new key) plus
    the clear cells of all the slices at its positions in the list of times;
    the other keys keep their tallies; slices beyond the times are not
    read. *)
Theorem metadata_from_dataset_tally (md : tally_dict) (ds : timed_dataset)
    (m : mask3) :
  (is_Some (metadata_from_dataset md ds m)
   <-> (length (time ds) <= depth m)%nat) /\
  (forall r, metadata_from_dataset md ds m = Some r ->
     (forall key, key ∈ time ds ->
        r !! key
        = Some (Tally (clean_of md key + clear_for m 0 (time ds) key))) /\
     (forall key, key ∉ time ds -> r !! key = md !! key) /\
     dom r = dom md ∪ list_to_set (time ds)).
Proof.
  unfold metadata_from_dataset. split.
  - rewrite metadata_loop_defined. split.
    + intros [->|?]; cbn; lia.
    + intros ?. right. lia.
  - intros r Hr.
    pose proof (metadata_loop_lookup m (time ds) 0 md r Hr) as Hl.
    split; [|split].
    + intros key Hk. rewrite Hl, decide_True by exact Hk. reflexivity.
    + intros key Hk. rewrite Hl, decide_False by exact Hk. reflexivity.
    + apply set_eq. intros key.
      rewrite elem_of_union, !elem_of_dom, elem_of_list_to_set, Hl.
      destruct (decide (key ∈ time ds)); split; eauto.
      intros [?|?]; [assumption|contradiction].
Qed.

Lemma metadata_from_dataset_tally_witness :
  exists r,
    metadata_from_dataset (<[Dt 2017 3 5 10 30 0 0 := Tally 40]> ∅)
      (TimedDataset [Dt 2017 3 5 10 30 0 0; Dt 2018 7 9 0 0 0 0])
      (mask_of_slices 1 2 [[[true; true]]; [[true; false]]]) = Some r /\
    r !! Dt 2017 3 5 10 30 0 0 = Some (Tally (40 + 2)) /\
    r !! Dt 2018 7 9 0 0 0 0 = Some (Tally (0 + 1)).
Proof.
  eexists. split; [reflexivity|].
  destruct (proj2 (metadata_from_dataset_tally
    (<[Dt 2017 3 5 10 30 0 0 := Tally 40]> ∅)
    (TimedDataset [Dt 2017 3 5 10 30 0 0; Dt 2018 7 9 0 0 0 0])
    (mask_of_slices 1 2 [[[true; true]]; [[true; false]]])) _ eq_refl)
    as (Hin & _ & _).
  split.
  - etransitivity; [apply Hin, list_elem_of_here|vm_compute; reflexivity].
  - etransitivity;
      [apply Hin, list_elem_of_further, list_elem_of_here
      |vm_compute; reflexivity].
Defined.

(** X7.  A successful [metadata_from_dataset] raises the sum of all
    [clean_pixels] by exactly the number of clear cells of the slices it
    read, one per time of the dataset. *)
Theorem metadata_from_dataset_conserves (md r : tally_dict)
    (ds : timed_dataset) (m : mask3)
    (Hr : metadata_from_dataset md ds m = Some r) :
  total_clean r = total_clean md + slices_clear m 0 (length (time ds)).
Proof. exact (metadata_loop_total m (time ds) 0 md r Hr). Qed.

Lemma metadata_from_dataset_conserves_witness :
  exists r,
    metadata_from_dataset (<[Dt 2017 3 5 10 30 0 0 := Tally 40]> ∅)
      (TimedDataset [Dt 2017 3 5 10 30 0 0; Dt 2018 7 9 0 0 0 0])
      (mask_of_slices 1 2 [[[true; true]]; [[true; false]]]) = Some r /\
    total_clean r
    = total_clean (<[Dt 2017 3 5 10 30 0 0 := Tally 40]> ∅)
      + slices_clear (mask_of_slices 1 2 [[[true; true]]; [[true; false]]])
          0 2.
Proof.
  eexists. split; [reflexivity|].
  apply (metadata_from_dataset_conserves
           (<[Dt 2017 3 5 10 30 0 0 := Tally 40]> ∅) _
           (TimedDataset [Dt 2017 3 5 10 30 0 0; Dt 2018 7 9 0 0 0 0])
           (mask_of_slices 1 2 [[[true; true]]; [[true; false]]])).
  reflexivity.
Defined.

(** X8.  Tallying a chunk into an existing dictionary gives the dictionary
    that [combine_metadata] makes of it and of the tally of the chunk into
    an empty dictionary. *)
Theorem metadata_from_dataset_combines (md r : tally_dict)
    (ds : timed_dataset) (m : mask3)
    (Hr : metadata_from_dataset md ds m = Some r) :
  exists r0,
    metadata_from_dataset ∅ ds m = Some r0 /\
    r = combine_metadata md r0.
Proof.
  unfold metadata_from_dataset in *.
  assert (is_Some (metadata_loop m 0 (time ds) ∅)) as [r0 Hr0].
  { apply metadata_loop_defined.
    apply (proj1 (metadata_loop_defined m (time ds) 0 md)). eauto. }
  exists r0. split; [exact Hr0|].
  apply map_eq. intros key.
  rewrite combine_metadata_lookup,
    (metadata_loop_lookup m (time ds) 0 md r Hr),
    (metadata_loop_lookup m (time ds) 0 ∅ r0 Hr0).
  unfold clean_of. rewrite lookup_empty.
  destruct (decide (key ∈ time ds)), (md !! key);
    cbn [clean_pixels]; try reflexivity; do 2 f_equal; lia.
Qed.

Lemma metadata_from_dataset_combines_witness :
  exists r r0,
    metadata_from_dataset (<[Dt 2017 3 5 10 30 0 0 := Tally 40]> ∅)
      (TimedDataset [Dt 2017 3 5 10 30 0 0; Dt 2018 7 9 0 0 0 0])
      (mask_of_slices 1 2 [[[true; true]]; [[true; false]]]) = Some r /\
    metadata_from_dataset ∅
      (TimedDataset [Dt 2017 3 5 10 30 0 0; Dt 2018 7 9 0 0 0 0])
      (mask_of_slices 1 2 [[[true; true]]; [[true; false]]]) = Some r0 /\
    r = combine_metadata (<[Dt 2017 3 5 10 30 0 0 := Tally 40]> ∅) r0.
Proof.
  eexists.
  destruct (metadata_from_dataset_combines
              (<[Dt 2017 3 5 10 30 0 0 := Tally 40]> ∅) _
              (TimedDataset [Dt 2017 3 5 10 30 0 0; Dt 2018 7 9 0 0 0 0])
              (mask_of_slices 1 2 [[[true; true]]; [[true; false]]])
              eq_refl) as (r0 & Hr0 & Hc).
  exists r0. split; [reflexivity|]. split; [exact Hr0|exact Hc].
Defined.

(** X9.  The two tallies of one chunk agree: the [clean_pixels] that
    [metadata_from_dataset] enters for its acquisitions add up to the
    [total_clear] that the first [clear_percentage] update holds over all
    the locations. *)
Theorem tallies_agree (d : CloudCoverage.dataset) (ds : timed_dataset)
    (m : mask3)
    (Htimes : depth m = length (time ds))
    (Hfit : CloudCoverage.fits d m None) :
  exists s md,
    CloudCoverage.clear_percentage d m None = Some s /\
    metadata_from_dataset ∅ ds m = Some md /\
    total_clean md
    = sum_upto (mrows m) (fun i =>
        sum_upto (mcols m) (fun j => CloudCoverage.total_clear s i j)).
Proof.
  assert (is_Some (metadata_from_dataset ∅ ds m)) as [md Hmd].
  { apply metadata_loop_defined. right. lia. }
  eexists. exists md.
  split; [apply AccumulatorFacts.clear_percentage_init, Hfit|].
  split; [exact Hmd|].
  rewrite (metadata_loop_total m (time ds) 0 ∅ md Hmd), total_clean_empty.
  rewrite <- Htimes, slices_clear_by_location. reflexivity.
Qed.

Lemma tallies_agree_witness :
  exists s md,
    CloudCoverage.clear_percentage
      (fst (CloudCoverage.chunk_of 1 2 [[[true; true]]; [[true; false]]]))
      (mask_of_slices 1 2 [[[true; true]]; [[true; false]]]) None = Some s /\
    metadata_from_dataset ∅
      (TimedDataset [Dt 2017 3 5 10 30 0 0; Dt 2018 7 9 0 0 0 0])
      (mask_of_slices 1 2 [[[true; true]]; [[true; false]]]) = Some md /\
    total_clean md
    = sum_upto 1 (fun i =>
        sum_upto 2 (fun j => CloudCoverage.total_clear s i j)).
Proof.
  apply (tallies_agree
           (fst (CloudCoverage.chunk_of 1 2 [[[true; true]]; [[true; false]]]))
           (TimedDataset [Dt 2017 3 5 10 30 0 0; Dt 2018 7 9 0 0 0 0])
           (mask_of_slices 1 2 [[[true; true]]; [[true; false]]]));
    [reflexivity|split; reflexivity].
Defined.

(** X10.  [combine_metadata] is associative, so partial dictionaries can be
    merged in any grouping. *)
Theorem combine_metadata_assoc (a b c : tally_dict) :
  combine_metadata (combine_metadata a b) c
  = combine_metadata a (combine_metadata b c).
Proof.
  apply map_eq. intros key. rewrite !combine_metadata_lookup.
  destruct (a !! key), (b !! key), (c !! key);
    cbn [clean_pixels]; try reflexivity.
  rewrite Z.add_assoc. reflexivity.
Qed.

(** X11.  The keys of a merge are the keys of either dictionary, and the
    empty dictionary is neutral on both sides. *)
Theorem combine_metadata_keys (old new : tally_dict) :
  dom (combine_metadata old new) = dom old ∪ dom new /\
  combine_metadata old ∅ = old /\
  combine_metadata ∅ new = new.
Proof.
  split; [|split].
  - apply set_eq. intros key.
    rewrite elem_of_union, !elem_of_dom, combine_metadata_lookup.
    destruct (old !! key), (new !! key); split; eauto.
    intros [[? ?]|[? ?]]; discriminate.
  - reflexivity.
  - apply map_eq. intros key.
    rewrite combine_metadata_lookup, lookup_empty. reflexivity.
Qed.

(** X12.  A merge loses and invents no clear pixel: the sum of all
    [clean_pixels] of the merge is the sum of the sums of the two
    dictionaries. *)
Theorem combine_metadata_additive (old new : tally_dict) :
  total_clean (combine_metadata old new) = total_clean old + total_clean new.
Proof.
  unfold combine_metadata.
  apply (map_fold_weak_ind
           (fun r m => total_clean r = total_clean old + total_clean m)).
  - rewrite total_clean_empty. lia.
  - intros key t m r Hkey IH. unfold combine_step.
    rewrite (total_clean_insert_new m) by exact Hkey.
    destruct (r !! key) as [o|] eqn:E.
    + rewrite (total_clean_insert_old r key o) by exact E.
      cbn [clean_pixels]. lia.
    + rewrite total_clean_insert_new by exact E. lia.
Qed.

End MetadataExtras.

(** ** The joined columns *)

Module ColumnsFacts.
Import Np Datetime Metadata Columns MetadataFacts.

Lemma append_nil (s : string) : EmptyString +:+ s = s.
Proof. reflexivity. Qed.

Lemma append_cons (c : ascii) (a b : string) :
  String c a +:+ b = String c (a +:+ b).
Proof. reflexivity. Qed.

Lemma split_append (sep : ascii) (s rest : string) :
  contains sep s = false ->
  split sep (s +:+ String sep rest) = s :: split sep rest.
Proof.
  induction s as [|c s IH]; intros Hs.
  - rewrite append_nil. cbn [split].
    rewrite decide_True by reflexivity. reflexivity.
  - cbn [contains] in Hs. apply orb_false_iff in Hs as [Hc Hs].
    apply bool_decide_eq_false in Hc.
    rewrite append_cons. cbn [split]. rewrite decide_False by exact Hc.
    rewrite (IH Hs). reflexivity.
Qed.

Lemma split_whole (sep : ascii) (s : string) :
  contains sep s = false -> split sep s = [s].
Proof.
  induction s as [|c s IH]; intros Hs; [reflexivity|].
  cbn [contains] in Hs. apply orb_false_iff in Hs as [Hc Hs].
  apply bool_decide_eq_false in Hc.
  cbn [split]. rewrite decide_False by exact Hc.
  rewrite (IH Hs). reflexivity.
Qed.

(** Splitting undoes joining, for fields without the separator. *)
Lemma split_join (sep : ascii) (l : list string) :
  l <> [] -> Forall (fun s => contains sep s = false) l ->
  split sep (join (String sep EmptyString) l) = l.
Proof.
  intros Hne Hl. induction Hl as [|s l Hs Hl IH]; [contradiction|].
  destruct l as [|s' l'].
  - cbn [join]. apply split_whole, Hs.
  - change (join (String sep EmptyString) (s :: s' :: l'))
      with (s +:+ String sep (join (String sep EmptyString) (s' :: l'))).
    rewrite split_append by exact Hs. rewrite IH by discriminate.
    reflexivity.
Qed.

Lemma contains_append (sep : ascii) (a b : string) :
  contains sep (a +:+ b) = contains sep a || contains sep b.
Proof.
  induction a as [|c a IH]; [reflexivity|].
  rewrite append_cons. cbn [contains]. rewrite IH, orb_assoc. reflexivity.
Qed.

Lemma digit_not_comma (n : Z) : digit n <> ","%char.
Proof.
  unfold digit.
  assert (0 <= n mod 10 < 10) as Hr by (apply Z.mod_pos_bound; lia).
  assert (Z.to_nat (n mod 10) < 10)%nat as Hk by lia.
  destruct (Z.to_nat (n mod 10)) as [|[|[|[|[|[|[|[|[|[|k]]]]]]]]]];
    try discriminate; lia.
Qed.

Lemma strftime_no_comma (d : datetime) :
  contains "," (strftime_mdY d) = false.
Proof.
  unfold strftime_mdY, pad4, pad2.
  rewrite !append_cons, !append_nil. cbn [contains].
  rewrite !(bool_decide_eq_false_2 _ (digit_not_comma _)).
  reflexivity.
Qed.

Lemma pretty_N_go_no_comma (x : N) :
  forall s, contains "," s = false -> contains "," (pretty_N_go x s) = false.
Proof.
  induction (N.lt_wf_0 x) as [x _ IH]; intros s Hs.
  assert (x = 0 \/ 0 < x)%N as [->|Hx] by lia.
  - rewrite pretty_N_go_0. exact Hs.
  - rewrite pretty_N_go_step by exact Hx. apply IH.
    + apply N.div_lt; [exact Hx|reflexivity].
    + cbn [contains]. rewrite Hs, orb_false_r.
      apply bool_decide_eq_false. unfold pretty_N_char.
      repeat case_match; discriminate.
Qed.

Lemma str_int_no_comma (n : Z) : contains "," (str_int n) = false.
Proof.
  unfold str_int, pretty, pretty_Z.
  assert (forall p : positive, contains "," (pretty p) = false) as Hp.
  { intros p. unfold pretty, pretty_positive, pretty, pretty_N.
    case_decide; [reflexivity|]. apply pretty_N_go_no_comma. reflexivity. }
  destruct n as [|p|p]; [reflexivity|apply Hp|].
  rewrite contains_append, Hp. reflexivity.
Qed.

Lemma sorted_dates_nonempty (md : tally_dict) :
  md <> ∅ -> sorted_dates md <> [].
Proof.
  intros Hne Hnil. apply Hne. apply map_size_empty_iff.
  rewrite <- sorted_dates_length, Hnil. reflexivity.
Qed.

End ColumnsFacts.

Module ColumnsExtras.
Import Np Datetime Metadata Columns ChunkSums MetadataFacts ColumnsFacts.

(** X13.  The three strings of [metadata_from_dict] can be read back: for a
    dictionary with at least one key, and a float formatting that writes no
    comma, splitting each string at the commas gives back its column, one
    field per key, so the three split lists have the same length and pair
    up position by position.  For the empty dictionary each string is empty
    and splits into one empty field, not into none. *)
Theorem metadata_strings_split (str_float : float64 -> string)
    (self : metadata) (md : tally_dict)
    (Hstr : forall x, contains "," (str_float x) = false) :
  let result := metadata_from_dict str_float self md in
  (md <> ∅ ->
     split "," (acquisition_list result) = date_column (sorted_dates md) /\
     split "," (clean_pixels_per_acquisition result)
     = clean_column md (sorted_dates md) /\
     split "," (clean_pixel_percentages_per_acquisition result)
     = percentage_column str_float self md (sorted_dates md) /\
     length (split "," (acquisition_list result)) = size md /\
     length (split "," (clean_pixels_per_acquisition result)) = size md /\
     length (split "," (clean_pixel_percentages_per_acquisition result))
     = size md) /\
  (md = ∅ ->
     acquisition_list result = "" /\
     clean_pixels_per_acquisition result = "" /\
     clean_pixel_percentages_per_acquisition result = "" /\
     split "," (acquisition_list result) = [""]).
Proof.
  intros result. split.
  - intros Hne. pose proof (sorted_dates_nonempty md Hne) as Hd.
    assert (split "," (acquisition_list result)
            = date_column (sorted_dates md)) as E1.
    { apply split_join.
      - unfold date_column. destruct (sorted_dates md); [contradiction|].
        discriminate.
      - apply Forall_forall. intros s [d [-> _]]%list_elem_of_fmap.
        apply strftime_no_comma. }
    assert (split "," (clean_pixels_per_acquisition result)
            = clean_column md (sorted_dates md)) as E2.
    { apply split_join.
      - unfold clean_column. destruct (sorted_dates md); [contradiction|].
        discriminate.
      - apply Forall_forall. intros s [d [-> _]]%list_elem_of_fmap.
        apply str_int_no_comma. }
    assert (split "," (clean_pixel_percentages_per_acquisition result)
            = percentage_column str_float self md (sorted_dates md)) as E3.
    { apply split_join.
      - unfold percentage_column.
        destruct (sorted_dates md); [contradiction|]. discriminate.
      - apply Forall_forall. intros s [d [-> _]]%list_elem_of_fmap.
        apply Hstr. }
    rewrite E1, E2, E3.
    repeat split;
      unfold date_column, clean_column, percentage_column;
      rewrite length_map; apply sorted_dates_length.
  - intros ->. subst result. unfold metadata_from_dict, sorted_dates.
    rewrite map_to_list_empty. cbn. auto.
Qed.

Lemma metadata_strings_split_witness :
  let md : tally_dict :=
    <[Dt 2017 3 5 10 30 0 0 := Tally 40]>
      (<[Dt 2018 7 9 0 0 0 0 := Tally 11]> ∅) in
  let result :=
    metadata_from_dict (fun _ => "x") (MetadataFields 50 0 NaN 0 0 "" "" "")
      md in
  split "," (acquisition_list result) = date_column (sorted_dates md) /\
  length (split "," (clean_pixel_percentages_per_acquisition result))
  = 2%nat.
Proof.
  intros md result.
  destruct (proj1 (metadata_strings_split (fun _ => "x")
                     (MetadataFields 50 0 NaN 0 0 "" "" "") md
                     (fun _ => eq_refl)))
    as (E1 & _ & _ & _ & _ & E6).
  { intros Hmd. apply (f_equal (fun m => m !! Dt 2017 3 5 10 30 0 0)) in Hmd.
    vm_compute in Hmd. discriminate Hmd. }
  split; [exact E1|]. etransitivity; [exact E6|]. vm_compute. reflexivity.
Defined.




End ColumnsExtras.

(** ** The query forms *)

Module QueryFormsExtras.
Import QueryForms.

Lemma fields_loop_yields {A} (self : gmap string A) (field_names : list string)
    (labels : list string) :
  forall idx ys e,
    fields_loop self field_names idx labels = (ys, e) ->
    (length ys <= length labels)%nat /\
    (forall i label v, ys !! i = Some (label, v) ->
       labels !! i = Some label /\
       exists name, field_names !! (idx + i)%nat = Some name /\
                    self !! name = Some v) /\
    (e = StopIteration <-> length ys = length labels) /\
    (e = IndexError <->
       (length ys < length labels)%nat /\
       field_names !! (idx + length ys)%nat = None) /\
    (e = AttributeError <->
       (length ys < length labels)%nat /\
       exists name, field_names !! (idx + length ys)%nat = Some name /\
                    self !! name = None).
Proof.
  induction labels as [|label rest IH]; intros idx ys e.
  - cbn [fields_loop]. intros [= <- <-]. cbn [length].
    split; [lia|].
    split; [intros i ? ?; rewrite lookup_nil; discriminate|].
    split; [split; reflexivity|].
    split; (split; [discriminate|intros [? _]; lia]).
  - cbn [fields_loop length].
    destruct (field_names !! idx) as [name|] eqn:En.
    + destruct (self !! name) as [v|] eqn:Ev.
      * destruct (fields_loop self field_names (S idx) rest) as [ys' e'] eqn:E.
        intros [= <- <-].
        destruct (IH (S idx) ys' e' E) as (Hlen & Hp & Hs & Hi & Ha).
        cbn [length]. split; [lia|]. split; [|split; [|split]].
        -- intros [|i] label' v'.
           ++ cbn. intros [= <- <-]. split; [reflexivity|].
              exists name. rewrite Nat.add_0_r. auto.
           ++ cbn. intros Hy. destruct (Hp i label' v' Hy) as [Hl [nm Hn]].
              split; [exact Hl|]. exists nm.
              replace (idx + S i)%nat with (S idx + i)%nat by lia. exact Hn.
        -- rewrite Hs. split; lia.
        -- rewrite Hi.
           replace (idx + S (length ys'))%nat
             with (S idx + length ys')%nat by lia.
           split; intros [? ?]; split; auto; lia.
        -- rewrite Ha.
           replace (idx + S (length ys'))%nat
             with (S idx + length ys')%nat by lia.
           split; intros [? ?]; split; auto; lia.
      * intros [= <- <-]. cbn [length]. rewrite Nat.add_0_r.
        split; [lia|]. split; [intros i ? ?; rewrite lookup_nil; discriminate|].
        split; [split; [discriminate|lia]|].
        split.
        -- split; [discriminate|]. intros [_ ?]. congruence.
        -- split; [|reflexivity]. intros _. split; [lia|]. eauto.
    + intros [= <- <-]. cbn [length]. rewrite Nat.add_0_r.
      split; [lia|]. split; [intros i ? ?; rewrite lookup_nil; discriminate|].
      split; [split; [discriminate|lia]|].
      split.
      * split; [|reflexivity]. intros _. split; [lia|exact En].
      * split; [discriminate|]. intros [_ [nm [? _]]]. congruence.
Qed.

(** X15.  Whatever ends the generator of [get_fields_with_labels], it has
    yielded, in order, the pairs of the first labels with the attributes
    named at the same positions of [field_names].  It ends normally exactly
    after one pair per label; it raises [IndexError] exactly when
    [field_names] has no entry for the next label, and [AttributeError]
    exactly when the next name is not an attribute of the object. *)
Theorem get_fields_with_labels_yields {A} (self : gmap string A)
    (labels field_names : list string) :
  (length (get_fields_with_labels self labels field_names).1
   <= length labels)%nat /\
  (forall i label v,
     (get_fields_with_labels self labels field_names).1 !! i
     = Some (label, v) ->
     labels !! i = Some label /\
     exists name, field_names !! i = Some name /\ self !! name = Some v) /\
  ((get_fields_with_labels self labels field_names).2 = StopIteration <->
     length (get_fields_with_labels self labels field_names).1
     = length labels) /\
  ((get_fields_with_labels self labels field_names).2 = IndexError <->
     (length (get_fields_with_labels self labels field_names).1
      < length labels)%nat /\
     field_names
       !! length (get_fields_with_labels self labels field_names).1 = None) /\
  ((get_fields_with_labels self labels field_names).2 = AttributeError <->
     (length (get_fields_with_labels self labels field_names).1
      < length labels)%nat /\
     exists name,
       field_names
         !! length (get_fields_with_labels self labels field_names).1
       = Some name /\
       self !! name = None).
Proof.
  unfold get_fields_with_labels.
  destruct (fields_loop self field_names 0 labels) as [ys e] eqn:E.
  exact (fields_loop_yields self field_names labels 0 ys e E).
Qed.


(** A form with a title but a list of field names that is too short. *)
Lemma get_fields_with_labels_yields_witness :
  (get_fields_with_labels (<["title" := 7]> ∅ : gmap string Z)
     ["Title"; "Satellite"] ["title"]).2 = IndexError.
Proof.
  apply (proj2 (proj1 (proj2 (proj2 (proj2
    (get_fields_with_labels_yields (<["title" := 7]> ∅ : gmap string Z)
       ["Title"; "Satellite"] ["title"])))))).
  split; [vm_compute; lia|reflexivity].
Defined.

Lemma set_default_lookup (key default : string) (d : gmap string form_value)
    (k : string) :
  set_default key default d !! k
  = if decide (k = key)
    then Some (match d !! key with
               | Some v => if decide (v = Text "") then Text default else v
               | None => Text default
               end)
    else d !! k.
Proof.
  unfold set_default. destruct (decide (k = key)) as [->|Hne].
  - destruct (d !! key) as [v|]; [destruct (decide (v = Text ""))|];
      rewrite lookup_insert_eq; reflexivity.
  - destruct (d !! key) as [v|]; [destruct (decide (v = Text ""))|];
      rewrite lookup_insert_ne by congruence; reflexivity.
Qed.

Lemma select_fields_from (query_data : gmap string form_value)
    (valid : list string) (key : string) :
  forall acc : gmap string form_value,
    foldl (fun acc key =>
             match query_data !! key with
             | Some v => <[key := v]> acc
             | None => acc
             end) acc valid !! key
    = if decide (key ∈ valid)
      then match query_data !! key with
           | Some v => Some v
           | None => acc !! key
           end
      else acc !! key.
Proof.
  induction valid as [|k valid IH]; intros acc.
  - cbn. rewrite decide_False by apply not_elem_of_nil. reflexivity.
  - cbn [foldl]. rewrite IH.
    destruct (decide (key = k)) as [->|Hne].
    + rewrite (decide_True (P := k ∈ k :: valid)) by apply list_elem_of_here.
      destruct (query_data !! k) as [v|] eqn:E.
      * destruct (decide (k ∈ valid)); [reflexivity|].
        apply lookup_insert_eq.
      * destruct (decide (k ∈ valid)); reflexivity.
    + assert ((match query_data !! k with
               | Some v => <[k := v]> acc
               | None => acc
               end) !! key = acc !! key) as ->.
      { destruct (query_data !! k); [|reflexivity].
        apply lookup_insert_ne. congruence. }
      destruct (decide (key ∈ valid)) as [Hin|Hnin].
      * rewrite decide_True by (apply list_elem_of_further, Hin). reflexivity.
      * rewrite decide_False; [reflexivity|].
        intros [?|?]%elem_of_cons; congruence.
Qed.

Lemma select_fields_lookup (valid : list string)
    (query_data : gmap string form_value) (key : string) :
  select_fields valid query_data !! key
  = if decide (key ∈ valid) then query_data !! key else None.
Proof.
  unfold select_fields. rewrite select_fields_from, lookup_empty.
  destruct (decide (key ∈ valid)); [|reflexivity].
  destruct (query_data !! key); reflexivity.
Qed.

Lemma set_default_again (key default : string) (d : gmap string form_value) :
  set_default key default (set_default key default d)
  = set_default key default d.
Proof.
  apply map_eq. intros k. rewrite !set_default_lookup.
  destruct (decide (k = key)) as [->|]; [|reflexivity].
  rewrite decide_True by reflexivity. f_equal.
  destruct (d !! key) as [v|].
  - destruct (decide (v = Text "")) as [->|Hv].
    + destruct (decide (Text default = Text "")); reflexivity.
    + rewrite decide_False by exact Hv. reflexivity.
  - destruct (decide (Text default = Text "")); reflexivity.
Qed.

Lemma set_default_swap (k1 d1 k2 d2 : string) (d : gmap string form_value) :
  k1 <> k2 ->
  set_default k1 d1 (set_default k2 d2 d)
  = set_default k2 d2 (set_default k1 d1 d).
Proof.
  intros Hne. apply map_eq. intros k. rewrite !set_default_lookup.
  rewrite (decide_False (P := k1 = k2)) by congruence.
  rewrite (decide_False (P := k2 = k1)) by congruence.
  destruct (decide (k = k1)) as [E1|E1], (decide (k = k2)) as [E2|E2];
    try reflexivity.
  congruence.
Qed.

(** X16.  Of [get_or_create_query_from_post], up to the database lookup:
    the caller's form dictionary is left with a title and a description that
    are never the empty string (the given one when it is not empty, the
    default otherwise) and with all its other entries unchanged; and the
    arguments of the lookup are exactly the entries of that dictionary whose
    key is a field of the model. *)
Theorem query_data_from_post_fields (default_title : string)
    (valid_query_fields : list string) (form_data : gmap string form_value)
    (Hdefault : default_title <> "") :
  let form' := (query_data_from_post default_title valid_query_fields
                  form_data).1 in
  let query_data := (query_data_from_post default_title valid_query_fields
                       form_data).2 in
  (forall key,
     query_data !! key
     = if decide (key ∈ valid_query_fields) then form' !! key else None) /\
  (exists t, form' !! "title" = Some t /\ t <> Text "" /\
     (forall v, form_data !! "title" = Some v -> v <> Text "" -> t = v) /\
     (form_data !! "title" = None \/ form_data !! "title" = Some (Text "") ->
      t = Text default_title)) /\
  (exists d, form' !! "description" = Some d /\ d <> Text "" /\
     (forall v, form_data !! "description" = Some v -> v <> Text "" -> d = v) /\
     (form_data !! "description" = None \/
      form_data !! "description" = Some (Text "") -> d = Text "None")) /\
  (forall key, key <> "title" -> key <> "description" ->
     form' !! key = form_data !! key).
Proof.
  intros form' query_data. subst form' query_data.
  unfold query_data_from_post. cbn [fst snd].
  split; [intros key; apply select_fields_lookup|].
  split; [|split].
  - eexists. rewrite !set_default_lookup.
    rewrite decide_False by discriminate. rewrite decide_True by reflexivity.
    split; [reflexivity|].
    destruct (form_data !! "title") as [v|].
    + destruct (decide (v = Text "")) as [->|Hv].
      * split; [congruence|]. split; [intros ? [= <-] ?; contradiction|auto].
      * split; [exact Hv|]. split; [intros ? [= <-] ?; reflexivity|].
        intros [?|[= ->]]; [discriminate|contradiction].
    + split; [congruence|]. split; [discriminate|auto].
  - eexists. rewrite !set_default_lookup.
    rewrite decide_True by reflexivity. rewrite decide_False by discriminate.
    split; [reflexivity|].
    destruct (form_data !! "description") as [v|].
    + destruct (decide (v = Text "")) as [->|Hv].
      * split; [discriminate|]. split; [intros ? [= <-] ?; contradiction|auto].
      * split; [exact Hv|]. split; [intros ? [= <-] ?; reflexivity|].
        intros [?|[= ->]]; [discriminate|contradiction].
    + split; [discriminate|]. split; [discriminate|auto].
  - intros key H1 H2. rewrite !set_default_lookup.
    rewrite !decide_False by assumption. reflexivity.
Qed.

Lemma query_data_from_post_fields_witness :
  exists t,
    (query_data_from_post "Cloud Coverage Query" ["title"; "satellite"]
       (<["title" := Text ""]> (<["csrf" := Text "x"]> ∅))).1 !! "title"
    = Some t /\ t <> Text "".
Proof.
  destruct (proj1 (proj2 (query_data_from_post_fields "Cloud Coverage Query"
              ["title"; "satellite"]
              (<["title" := Text ""]> (<["csrf" := Text "x"]> ∅))
              ltac:(discriminate))))
    as (t & Ht & Hne & _).
  exists t. split; [exact Ht|exact Hne].
Defined.

(** X17.  Submitting again the form dictionary that a call has left gives
    the same dictionary and the same arguments of the lookup: the defaults
    are filled in once and for all. *)
Theorem query_data_from_post_again (default_title : string)
    (valid_query_fields : list string) (form_data : gmap string form_value) :
  query_data_from_post default_title valid_query_fields
    (query_data_from_post default_title valid_query_fields form_data).1
  = query_data_from_post default_title valid_query_fields form_data.
Proof.
  unfold query_data_from_post. cbn [fst].
  assert (set_default "description" "None"
            (set_default "title" default_title
               (set_default "description" "None"
                  (set_default "title" default_title form_data)))
          = set_default "description" "None"
              (set_default "title" default_title form_data)) as ->.
  { rewrite (set_default_swap "title" default_title "description" "None")
      by discriminate.
    rewrite !set_default_again. reflexivity. }
  reflexivity.
Qed.

End QueryFormsExtras.

(** ** The three answers of the spectral-anomaly query *)

Module SpectralAnomalyExtras.
Import SpectralAnomaly.

Lemma known_or_other (id : string) :
  id = "most_recent" \/ id = "least_recent" \/ id = "max_ndvi" \/
  id = "min_ndvi" \/ id = "median_pixel" \/
  (id <> "most_recent" /\ id <> "least_recent" /\ id <> "max_ndvi" /\
   id <> "min_ndvi" /\ id <> "median_pixel").
Proof.
  destruct (decide (id = "most_recent")); [auto|].
  destruct (decide (id = "least_recent")); [auto|].
  destruct (decide (id = "max_ndvi")); [auto|].
  destruct (decide (id = "min_ndvi")); [auto|].
  destruct (decide (id = "median_pixel")); [auto 6|].
  do 5 right. auto.
Qed.

Lemma get_processing_method_other (id : string) :
  id <> "most_recent" -> id <> "least_recent" -> id <> "max_ndvi" ->
  id <> "min_ndvi" -> id <> "median_pixel" ->
  get_processing_method (Query id) = create_mosaic.
Proof.
  intros. unfold get_processing_method, processing_methods.
  cbn [compositor_id].
  rewrite !lookup_insert_ne by congruence. rewrite lookup_empty. reflexivity.
Qed.

(** X18.  The three methods agree on the median compositor: the query is
    not iterative exactly when its compositor is [median_pixel], which is
    exactly when its mosaic function is [create_median_mosaic].  And a query
    with a compositor outside the five known ones gets the three answers of
    [least_recent]: iterative, not reversed, [create_mosaic]. *)
Theorem median_is_the_batch_method (self : query) :
  (get_iterative self = false <-> compositor_id self = "median_pixel") /\
  (get_processing_method self = create_median_mosaic
   <-> compositor_id self = "median_pixel") /\
  (compositor_id self ∉
     ["most_recent"; "least_recent"; "max_ndvi"; "min_ndvi"; "median_pixel"] ->
   get_iterative self = get_iterative (Query "least_recent") /\
   get_reverse_time self = get_reverse_time (Query "least_recent") /\
   get_processing_method self = get_processing_method (Query "least_recent")).
Proof.
  destruct self as [id]. cbn [compositor_id].
  split; [|split].
  - unfold get_iterative. cbn [compositor_id].
    rewrite bool_decide_eq_false. split; [apply dec_stable|auto].
  - split; [|intros ->; vm_compute; reflexivity].
    destruct (known_or_other id)
      as [->|[->|[->|[->|[->|(H1 & H2 & H3 & H4 & H5)]]]]];
      try (vm_compute; discriminate); [reflexivity|].
    rewrite get_processing_method_other by assumption. discriminate.
  - intros Hid.
    assert (id <> "most_recent" /\ id <> "least_recent" /\ id <> "max_ndvi" /\
            id <> "min_ndvi" /\ id <> "median_pixel")
      as (H1 & H2 & H3 & H4 & H5).
    { repeat split; intros ->; apply Hid; set_solver. }
    split; [|split].
    + transitivity true; [|reflexivity].
      apply bool_decide_eq_true_2. exact H5.
    + transitivity false; [|reflexivity].
      apply bool_decide_eq_false_2. exact H1.
    + rewrite get_processing_method_other by assumption. reflexivity.
Qed.

Lemma median_is_the_batch_method_witness :
  get_iterative (Query "nearest_cloud_free")
  = get_iterative (Query "least_recent") /\
  get_reverse_time (Query "nearest_cloud_free")
  = get_reverse_time (Query "least_recent") /\
  get_processing_method (Query "nearest_cloud_free")
  = get_processing_method (Query "least_recent").
Proof.
  apply (proj2 (proj2 (median_is_the_batch_method
                         (Query "nearest_cloud_free")))).
  cbn [compositor_id]. intros H.
  repeat (apply elem_of_cons in H as [H|H]; [discriminate H|]).
  apply elem_of_nil in H. exact H.
Defined.

End SpectralAnomalyExtras.

(** ** Shared inner dictionaries *)

Module MetadataRefsFacts.
Import Datetime Metadata MetadataRefs MetadataFacts.

Lemma assoc_app (d : refs) (k key : datetime) (ref : nat) :
  assoc (d ++ [(k, ref)]) key
  = match assoc d key with
    | Some r => Some r
    | None => if decide (k = key) then Some ref else None
    end.
Proof.
  induction d as [|[k' r'] d IH]; cbn [app assoc]; [reflexivity|].
  destruct (decide (k' = key)); [reflexivity|exact IH].
Qed.

Lemma assoc_elem (d : refs) (key : datetime) (ref : nat) :
  assoc d key = Some ref -> (key, ref) ∈ d.
Proof.
  induction d as [|[k r] d IH]; cbn [assoc]; [discriminate|].
  destruct (decide (k = key)) as [->|].
  - intros [= ->]. apply list_elem_of_here.
  - intros H. apply list_elem_of_further, IH, H.
Qed.

Lemma assoc_absent (d : refs) (key : datetime) :
  key ∉ d.*1 -> assoc d key = None.
Proof.
  induction d as [|[k r] d IH]; cbn [assoc fmap list_fmap]; [reflexivity|].
  intros [Hne Hk]%not_elem_of_cons.
  cbn in Hne. rewrite decide_False by congruence. apply IH, Hk.
Qed.

Lemma assoc_present (d : refs) (key : datetime) (ref : nat) :
  NoDup d.*1 -> (key, ref) ∈ d -> assoc d key = Some ref.
Proof.
  induction d as [|[k r] d IH]; intros Hnd Hin.
  - apply elem_of_nil in Hin. contradiction.
  - cbn in Hnd. apply NoDup_cons in Hnd as [Hk Hnd].
    apply elem_of_cons in Hin as [[= -> ->]|Hin]; cbn [assoc].
    + rewrite decide_True by reflexivity. reflexivity.
    + rewrite decide_False; [apply IH; assumption|].
      intros ->. apply Hk. apply list_elem_of_fmap.
      exists (key, ref). split; [reflexivity|exact Hin].
Qed.

(** A reference held under two keys of a dictionary whose references are
    distinct is held under one key. *)
Lemma assoc_inj (d : refs) (k1 k2 : datetime) (ref : nat) :
  NoDup d.*2 -> assoc d k1 = Some ref -> assoc d k2 = Some ref -> k1 = k2.
Proof.
  induction d as [|[k r] d IH]; cbn [assoc]; [discriminate|].
  intros Hnd. cbn in Hnd. apply NoDup_cons in Hnd as [Hr Hnd].
  assert (forall key, assoc d key = Some r -> False) as Hfresh.
  { intros key Hk. apply Hr. apply list_elem_of_fmap.
    exists (key, r). split; [reflexivity|apply assoc_elem, Hk]. }
  destruct (decide (k = k1)) as [E1|E1], (decide (k = k2)) as [E2|E2];
    intros H1 H2.
  - congruence.
  - injection H1 as <-. destruct (Hfresh _ H2).
  - injection H2 as <-. destruct (Hfresh _ H1).
  - exact (IH Hnd H1 H2).
Qed.

Lemma view_lookup (h : store) (d : refs) (key : datetime) :
  view h d !! key = (fun ref => Tally (read h ref)) <$> assoc d key.
Proof.
  unfold view. induction d as [|[k r] d IH]; [apply lookup_empty|].
  cbn [map assoc]. rewrite list_to_map_cons. cbn [fst snd].
  destruct (decide (k = key)) as [->|Hne].
  - apply lookup_insert_eq.
  - rewrite lookup_insert_ne by exact Hne. exact IH.
Qed.

Lemma filter_agree {A} (P Q : A -> Prop) `{forall x, Decision (P x)}
    `{forall x, Decision (Q x)} (l : list A) :
  (forall x, x ∈ l -> P x <-> Q x) -> filter P l = filter Q l.
Proof.
  induction l as [|x l IH]; intros Hl; [reflexivity|].
  rewrite !filter_cons.
  assert (P x <-> Q x) as Hx by (apply Hl, list_elem_of_here).
  rewrite IH by (intros y Hy; apply Hl, list_elem_of_further, Hy).
  destruct (decide (P x)), (decide (Q x)); tauto || reflexivity.
Qed.

(** The dictionary returned: [old], then the items of [new] under the keys
    that [old] lacked, in the order of [new]. *)
Lemma combine_loop_refs (items : refs) :
  NoDup items.*1 ->
  forall old h,
    (combine_loop items old h).1
    = old ++ filter (fun p => assoc old p.1 = None) items.
Proof.
  induction items as [|[key ref] rest IH]; intros Hnd old h.
  - cbn. rewrite app_nil_r. reflexivity.
  - cbn in Hnd. apply NoDup_cons in Hnd as [Hkey Hnd].
    cbn [combine_loop]. rewrite filter_cons. cbn [fst].
    destruct (assoc old key) as [target|] eqn:E.
    + rewrite decide_False by discriminate. apply IH, Hnd.
    + rewrite decide_True by reflexivity. rewrite IH by exact Hnd.
      rewrite <- app_assoc. cbn [app]. do 2 f_equal.
      apply filter_agree. intros [k r] Hin. cbn [fst].
      rewrite assoc_app.
      destruct (assoc old k); [reflexivity|].
      rewrite decide_False; [reflexivity|].
      intros ->. apply Hkey. apply list_elem_of_fmap.
      exists (k, r). split; [reflexivity|exact Hin].
Qed.

Lemma added_agree (items : refs) (old old' : refs) (h h' : store)
    (ref : nat) :
  (forall k r, (k, r) ∈ items ->
     assoc old' k = assoc old k /\
     (is_Some (assoc old k) -> read h' r = read h r)) ->
  added items old' h' ref = added items old h ref.
Proof.
  induction items as [|[k r] rest IH]; intros H; [reflexivity|].
  cbn [added].
  destruct (H k r (list_elem_of_here _ _)) as [-> Hr].
  rewrite IH by (intros k' r' Hin; apply H, list_elem_of_further, Hin).
  destruct (assoc old k) as [target|]; [|reflexivity].
  rewrite Hr by eauto. reflexivity.
Qed.

Lemma read_insert (h : store) (target ref : nat) (v : Z) :
  read (<[target := v]> h) ref
  = if decide (target = ref) then v else read h ref.
Proof.
  unfold read. destruct (decide (target = ref)) as [->|Hne].
  - rewrite lookup_insert_eq. reflexivity.
  - rewrite lookup_insert_ne by exact Hne. reflexivity.
Qed.

(** The store returned: each inner dictionary of [old] has gained the
    counts of the items of [new] under its key. *)
Lemma combine_loop_store (items : refs) :
  NoDup items.*1 ->
  forall old h, quiet items old ->
    forall ref,
      read (combine_loop items old h).2 ref
      = read h ref + added items old h ref.
Proof.
  induction items as [|[key r0] rest IH]; intros Hnd old h Hq ref.
  - cbn. lia.
  - cbn in Hnd. apply NoDup_cons in Hnd as [Hkey Hnd].
    assert (forall k r, (k, r) ∈ rest -> k <> key) as Hrest.
    { intros k r Hin ->. apply Hkey. apply list_elem_of_fmap.
      exists (key, r). split; [reflexivity|exact Hin]. }
    cbn [combine_loop added].
    destruct (assoc old key) as [target|] eqn:E.
    + rewrite IH; [|exact Hnd|].
      * rewrite read_insert.
        rewrite (added_agree rest old old h _ ref).
        -- destruct (decide (target = ref)) as [->|]; lia.
        -- intros k r Hin. split; [reflexivity|]. intros _.
           rewrite read_insert. rewrite decide_False; [reflexivity|].
           intros ->.
           exact (Hq k r key r0 _ (list_elem_of_further _ _ _ Hin)
                    (list_elem_of_here _ _) E eq_refl).
      * intros k r k' r' t Hin Hin' Ht.
        exact (Hq k r k' r' t (list_elem_of_further _ _ _ Hin)
                 (list_elem_of_further _ _ _ Hin') Ht).
    + assert (forall k r, (k, r) ∈ rest ->
                assoc (old ++ [(key, r0)]) k = assoc old k) as Hsame.
      { intros k r Hin. rewrite assoc_app.
        destruct (assoc old k); [reflexivity|].
        rewrite decide_False; [reflexivity|].
        intros Heq. exact (Hrest k r Hin (eq_sym Heq)). }
      rewrite IH; [|exact Hnd|].
      * rewrite (added_agree rest old _ h h ref); [lia|].
        intros k r Hin. split; [exact (Hsame k r Hin)|reflexivity].
      * intros k r k' r' t Hin Hin' Ht.
        rewrite (Hsame k' r' Hin') in Ht.
        exact (Hq k r k' r' t (list_elem_of_further _ _ _ Hin)
                 (list_elem_of_further _ _ _ Hin') Ht).
Qed.

End MetadataRefsFacts.

Module MetadataRefsExtras.
Import Datetime Metadata MetadataRefs MetadataFacts MetadataRefsFacts.

Lemma assoc_append (a b : refs) (key : datetime) :
  assoc (a ++ b) key
  = match assoc a key with
    | Some r => Some r
    | None => assoc b key
    end.
Proof.
  induction a as [|[k r] a IH]; cbn [app assoc]; [reflexivity|].
  destruct (decide (k = key)); [reflexivity|exact IH].
Qed.

Lemma assoc_kept (old items : refs) (key : datetime) :
  assoc old key = None ->
  assoc (filter (fun p => assoc old p.1 = None) items) key = assoc items key.
Proof.
  intros Hkey. induction items as [|[k r] rest IH]; [reflexivity|].
  rewrite filter_cons. cbn [fst assoc].
  destruct (decide (assoc old k = None)) as [Hk|Hk]; cbn [assoc].
  - destruct (decide (k = key)); [reflexivity|exact IH].
  - rewrite decide_False by congruence. exact IH.
Qed.

Lemma kept_refs_elem (old items : refs) (ref : nat) :
  ref ∈ (filter (fun p => assoc old p.1 = None) items).*2 -> ref ∈ items.*2.
Proof.
  intros [p [-> [_ Hp]%list_elem_of_filter]]%list_elem_of_fmap.
  apply list_elem_of_fmap. eauto.
Qed.

Lemma kept_refs_nodup (old items : refs) :
  NoDup items.*2 ->
  NoDup (filter (fun p => assoc old p.1 = None) items).*2.
Proof.
  induction items as [|[k r] rest IH]; intros Hnd; [constructor|].
  cbn in Hnd. apply NoDup_cons in Hnd as [Hr Hnd].
  rewrite filter_cons. destruct (decide _); [|apply IH, Hnd].
  cbn. apply NoDup_cons. split; [|apply IH, Hnd].
  intros Hin. apply Hr. eapply kept_refs_elem, Hin.
Qed.

Lemma added_none (items old : refs) (h : store) (ref : nat) :
  ref ∉ old.*2 -> added items old h ref = 0.
Proof.
  intros Href. induction items as [|[k r] rest IH]; [reflexivity|].
  cbn [added]. rewrite IH.
  destruct (assoc old k) as [target|] eqn:E; [|reflexivity].
  rewrite decide_False; [reflexivity|].
  intros ->. apply Href. apply list_elem_of_fmap.
  exists (k, ref). split; [reflexivity|apply assoc_elem, E].
Qed.

Lemma added_other_keys (items old : refs) (h : store) (key : datetime)
    (target : nat) :
  NoDup old.*2 -> assoc old key = Some target -> key ∉ items.*1 ->
  added items old h target = 0.
Proof.
  intros Hold Hkey. induction items as [|[k r] rest IH]; [reflexivity|].
  cbn. intros [Hne Hrest]%not_elem_of_cons. rewrite IH by exact Hrest.
  destruct (assoc old k) as [t|] eqn:E; [|reflexivity].
  rewrite decide_False; [reflexivity|].
  intros ->. apply Hne. exact (assoc_inj old key k target Hold Hkey E).
Qed.

Lemma added_key (items old : refs) (h : store) (key : datetime)
    (target : nat) :
  NoDup items.*1 -> NoDup old.*2 -> assoc old key = Some target ->
  added items old h target
  = match assoc items key with
    | Some r => read h r
    | None => 0
    end.
Proof.
  intros Hnd Hold Hkey. induction items as [|[k r] rest IH]; [reflexivity|].
  cbn in Hnd. apply NoDup_cons in Hnd as [Hk Hnd]. cbn [added assoc].
  destruct (decide (k = key)) as [->|Hne].
  - rewrite Hkey, decide_True by reflexivity.
    rewrite (added_other_keys rest old h key target) by assumption. lia.
  - rewrite IH by exact Hnd.
    destruct (assoc old k) as [t|] eqn:E; [|reflexivity].
    rewrite decide_False; [reflexivity|].
    intros ->. apply Hne. exact (assoc_inj old k key target Hold E Hkey).
Qed.

Lemma quiet_separate (items old : refs) :
  (forall r, r ∈ items.*2 -> r ∉ old.*2) -> quiet items old.
Proof.
  intros Hsep k r k' r' target Hin _ Ht ->.
  apply (Hsep target).
  - apply list_elem_of_fmap. exists (k, target). auto.
  - apply list_elem_of_fmap. exists (k', target).
    split; [reflexivity|apply assoc_elem, Ht].
Qed.

Lemma combine_ref_assoc (old new : refs) (h : store) (key : datetime) :
  NoDup new.*1 ->
  assoc (combine_metadata_ref old new h).1 key
  = match assoc old key with
    | Some r => Some r
    | None => assoc new key
    end.
Proof.
  intros Hnew. unfold combine_metadata_ref.
  rewrite combine_loop_refs by exact Hnew. rewrite assoc_append.
  destruct (assoc old key) eqn:E; [reflexivity|].
  apply assoc_kept, E.
Qed.

(** X19.  On dictionaries that share no inner dictionary (the references
    of [old] are distinct and none is a reference of [new]),
    [combine_metadata] with its assignments in place computes what the
    merge of the contents says: the contents of the returned [old] are the
    per-key merge of the contents of the two arguments, and the contents of
    [new] are unchanged. *)
Theorem combine_metadata_ref_refines (old new : refs) (h : store)
    (Hnew : NoDup new.*1) (Hold : NoDup old.*2)
    (Hsep : forall r, r ∈ new.*2 -> r ∉ old.*2) :
  view (combine_metadata_ref old new h).2 (combine_metadata_ref old new h).1
  = combine_metadata (view h old) (view h new) /\
  view (combine_metadata_ref old new h).2 new = view h new.
Proof.
  assert (forall ref,
            read (combine_metadata_ref old new h).2 ref
            = read h ref + added new old h ref) as Hread.
  { intros ref. apply combine_loop_store;
      [exact Hnew|apply quiet_separate, Hsep]. }
  assert (forall key r, assoc new key = Some r ->
            read (combine_metadata_ref old new h).2 r = read h r) as Hkeep.
  { intros key r Hr. rewrite Hread, added_none; [lia|].
    apply Hsep. apply list_elem_of_fmap. exists (key, r).
    split; [reflexivity|apply assoc_elem, Hr]. }
  split; apply map_eq; intros key.
  - rewrite combine_metadata_lookup, !view_lookup.
    rewrite combine_ref_assoc by exact Hnew.
    destruct (assoc old key) as [target|] eqn:Eo; cbn [fmap option_fmap option_map].
    + rewrite Hread, (added_key new old h key target) by assumption.
      destruct (assoc new key) as [r|]; cbn; do 2 f_equal; lia.
    + destruct (assoc new key) as [r|] eqn:En; cbn; [|reflexivity].
      rewrite (Hkeep key r En). reflexivity.
  - rewrite !view_lookup.
    destruct (assoc new key) as [r|] eqn:En; cbn; [|reflexivity].
    rewrite (Hkeep key r En). reflexivity.
Qed.

Lemma combine_metadata_ref_refines_witness :
  view
    (combine_metadata_ref [(Dt 2017 3 5 10 30 0 0, 1%nat)]
       [(Dt 2017 3 5 10 30 0 0, 2%nat); (Dt 2018 7 9 0 0 0 0, 3%nat)]
       (<[1%nat := 40]> (<[2%nat := 2]> (<[3%nat := 11]> ∅)))).2
    (combine_metadata_ref [(Dt 2017 3 5 10 30 0 0, 1%nat)]
       [(Dt 2017 3 5 10 30 0 0, 2%nat); (Dt 2018 7 9 0 0 0 0, 3%nat)]
       (<[1%nat := 40]> (<[2%nat := 2]> (<[3%nat := 11]> ∅)))).1
  = combine_metadata
      (view (<[1%nat := 40]> (<[2%nat := 2]> (<[3%nat := 11]> ∅)))
         [(Dt 2017 3 5 10 30 0 0, 1%nat)])
      (view (<[1%nat := 40]> (<[2%nat := 2]> (<[3%nat := 11]> ∅)))
         [(Dt 2017 3 5 10 30 0 0, 2%nat); (Dt 2018 7 9 0 0 0 0, 3%nat)]).
Proof.
  apply (combine_metadata_ref_refines [(Dt 2017 3 5 10 30 0 0, 1%nat)]
           [(Dt 2017 3 5 10 30 0 0, 2%nat); (Dt 2018 7 9 0 0 0 0, 3%nat)]).
  - cbn. apply NoDup_cons. split.
    + intros H. apply list_elem_of_singleton in H. discriminate H.
    + apply NoDup_singleton.
  - cbn. apply NoDup_singleton.
  - cbn. intros r Hr Hold. apply list_elem_of_singleton in Hold as ->.
    apply elem_of_cons in Hr as [Hr|Hr]; [discriminate Hr|].
    apply list_elem_of_singleton in Hr. discriminate Hr.
Defined.

(** X20.  A key that [old] lacked is entered with the inner dictionary of
    [new] itself, so a later merge into [old] changes [new]: when the
    dictionaries share no inner dictionary to begin with, [key] is missing
    from [old] and present in [new] and in [new2], then after merging [new]
    and then [new2] into [old], the tally of [new] under [key] has become
    the sum of its own and that of [new2]. *)
Theorem combine_metadata_ref_shares (old new new2 : refs) (h : store)
    (key : datetime) (r r2 : nat)
    (Hnew : NoDup new.*1) (Hnew2 : NoDup new2.*1)
    (Hall : NoDup (old.*2 ++ new.*2 ++ new2.*2))
    (Hold : assoc old key = None)
    (Hr : assoc new key = Some r) (Hr2 : assoc new2 key = Some r2) :
  let first := combine_metadata_ref old new h in
  let second := combine_metadata_ref first.1 new2 first.2 in
  assoc first.1 key = assoc new key /\
  view first.2 new !! key = Some (Tally (read h r)) /\
  view second.2 new !! key = Some (Tally (read h r + read h r2)).
Proof.
  intros first second.
  apply NoDup_app in Hall as (Hold2 & Hsep1 & Hall).
  apply NoDup_app in Hall as (Hnew'2 & Hsep2 & Hnew2'2).
  assert (r ∈ new.*2) as Hrin.
  { apply list_elem_of_fmap. exists (key, r).
    split; [reflexivity|apply assoc_elem, Hr]. }
  assert (r2 ∈ new2.*2) as Hr2in.
  { apply list_elem_of_fmap. exists (key, r2).
    split; [reflexivity|apply assoc_elem, Hr2]. }
  assert (forall x, x ∈ new.*2 ++ new2.*2 -> read first.2 x = read h x)
    as Hfirst.
  { intros x Hx. subst first. unfold combine_metadata_ref.
    rewrite combine_loop_store; [|exact Hnew|].
    - rewrite added_none; [lia|]. intros Hxo. exact (Hsep1 x Hxo Hx).
    - apply quiet_separate. intros y Hy Hyo.
      apply (Hsep1 y Hyo). apply elem_of_app. auto. }
  assert (assoc first.1 key = Some r) as Hshare.
  { subst first. rewrite combine_ref_assoc, Hold by exact Hnew. exact Hr. }
  assert (first.1.*2 = old.*2
          ++ (filter (fun p => assoc old p.1 = None) new).*2) as Hrefs.
  { subst first. unfold combine_metadata_ref.
    rewrite combine_loop_refs by exact Hnew. apply fmap_app. }
  assert (NoDup first.1.*2) as Hnd1.
  { rewrite Hrefs. apply NoDup_app. split; [exact Hold2|]. split.
    - intros x Hx Hk. apply kept_refs_elem in Hk.
      apply (Hsep1 x Hx). apply elem_of_app. auto.
    - apply kept_refs_nodup, Hnew'2. }
  assert (forall x, x ∈ new2.*2 -> x ∉ first.1.*2) as Hsep3.
  { intros x Hx. rewrite Hrefs. intros [Ho|Hk]%elem_of_app.
    - apply (Hsep1 x Ho). apply elem_of_app. auto.
    - apply kept_refs_elem in Hk. exact (Hsep2 x Hk Hx). }
  split; [congruence|]. split.
  - rewrite view_lookup, Hr. cbn. rewrite Hfirst by (apply elem_of_app; auto).
    reflexivity.
  - rewrite view_lookup, Hr. cbn. do 2 f_equal.
    subst second. unfold combine_metadata_ref at 1.
    rewrite combine_loop_store; [|exact Hnew2|apply quiet_separate, Hsep3].
    rewrite (added_key new2 first.1 first.2 key r) by assumption.
    rewrite Hr2, !Hfirst by (apply elem_of_app; auto). reflexivity.
Qed.

Lemma combine_metadata_ref_shares_witness :
  view
    (combine_metadata_ref
       (combine_metadata_ref [] [(Dt 2018 7 9 0 0 0 0, 3%nat)]
          (<[3%nat := 11]> (<[4%nat := 5]> ∅))).1
       [(Dt 2018 7 9 0 0 0 0, 4%nat)]
       (combine_metadata_ref [] [(Dt 2018 7 9 0 0 0 0, 3%nat)]
          (<[3%nat := 11]> (<[4%nat := 5]> ∅))).2).2
    [(Dt 2018 7 9 0 0 0 0, 3%nat)] !! Dt 2018 7 9 0 0 0 0
  = Some (Tally (11 + 5)).
Proof.
  apply (proj2 (proj2 (combine_metadata_ref_shares []
           [(Dt 2018 7 9 0 0 0 0, 3%nat)] [(Dt 2018 7 9 0 0 0 0, 4%nat)]
           (<[3%nat := 11]> (<[4%nat := 5]> ∅))
           (Dt 2018 7 9 0 0 0 0) 3%nat 4%nat
           ltac:(apply NoDup_singleton) ltac:(apply NoDup_singleton)
           ltac:(cbn; apply NoDup_cons; split;
                 [intros H; apply list_elem_of_singleton in H; discriminate H
                 |apply NoDup_singleton])
           eq_refl eq_refl eq_refl))).
Defined.

End MetadataRefsExtras.

(** ** From a chunk to the summary *)

Module SummaryExtras.
Import Np Datetime Metadata MetadataDataset MetadataFacts MetadataDatasetFacts.

(** X21.  Tallying a dataset into an empty dictionary and summarising the
    result counts every acquisition time once: [total_scenes] and
    [scenes_processed] are the number of distinct times of the dataset, also
    when a time occurs more than once in it. *)
Theorem scenes_are_distinct_times (str_float : float64 -> string)
    (self : metadata) (ds : timed_dataset) (m : mask3) (md : tally_dict)
    (Hmd : metadata_from_dataset ∅ ds m = Some md) :
  total_scenes (metadata_from_dict str_float self md)
  = Z.of_nat (size (list_to_set (time ds) : gset datetime)) /\
  scenes_processed (metadata_from_dict str_float self md)
  = Z.of_nat (size (list_to_set (time ds) : gset datetime)).
Proof.
  cbn [metadata_from_dict total_scenes scenes_processed].
  rewrite sorted_dates_length, <- size_dom.
  assert (dom md = list_to_set (time ds)) as ->; [|auto].
  apply set_eq. intros key.
  rewrite elem_of_dom, elem_of_list_to_set.
  unfold metadata_from_dataset in Hmd.
  rewrite (metadata_loop_lookup m (time ds) 0 ∅ md Hmd key), lookup_empty.
  destruct (decide (key ∈ time ds)); split; eauto.
  - intros [? ?]; discriminate.
  - contradiction.
Qed.

Lemma scenes_are_distinct_times_witness :
  exists md,
    metadata_from_dataset ∅
      (TimedDataset [Dt 2017 3 5 10 30 0 0; Dt 2017 3 5 10 30 0 0])
      (mask_of_slices 1 2 [[[true; true]]; [[true; false]]]) = Some md /\
    total_scenes
      (metadata_from_dict (fun _ => "") (MetadataFields 2 0 NaN 0 0 "" "" "")
         md) = 1.
Proof.
  eexists. split; [reflexivity|].
  etransitivity.
  - apply (proj1 (scenes_are_distinct_times (fun _ => "")
             (MetadataFields 2 0 NaN 0 0 "" "" "")
             (TimedDataset [Dt 2017 3 5 10 30 0 0; Dt 2017 3 5 10 30 0 0])
             (mask_of_slices 1 2 [[[true; true]]; [[true; false]]]) _
             eq_refl)).
  - vm_compute. reflexivity.
Defined.

End SummaryExtras.
